(** * CLogger (clog/logger.c, clog/include/logger.h): a shallow embedding

    The logger is C code over stdio, errno and a platform mutex.  The
    embedding keeps that shape:

    - [World] is the part of the process the logger can see or change: the
      errno cell, the memory holding [Logger] objects, and the chronological
      trace of the libc calls issued so far.  Stream writes are taken to
      succeed, so the bytes a stream has received are read off the trace;
    - [Env] collects what the platform answers (is this stream a terminal,
      does this path open, does the mutex initialise, what time is it);
    - every C function is a computation in the state monad [M] over [World],
      written statement by statement after the source. *)

From Stdlib Require Import ZArith List String Ascii Bool Lia DecimalString.
From stdpp Require Import base numbers functions.
Import ListNotations.

Local Open Scope string_scope.
Local Open Scope Z_scope.

(** ** The libc side *)

Module Libc.

(** A [FILE*] is NULL or names an open stream. *)
Definition handle := positive.
Definition FILEp := option handle.

(** A [Logger*] is NULL or the address of storage holding a [Logger]. *)
Definition loc := positive.

Definition EINVAL : Z := 22.
Definition ENOTTY : Z := 25.

Inductive bufmode := IOFBF | IOLBF | IONBF.

(** One entry per libc call that reaches outside the logger object. *)
Inductive Event :=
| EvWrite (h : handle) (bytes : string)      (* fputs / fputc / fprintf *)
| EvFlush (h : handle)                       (* fflush *)
| EvClose (h : handle)                       (* fclose *)
| EvOpen (path mode : string) (r : FILEp)    (* fopen and its result *)
| EvSetvbuf (h : handle) (m : bufmode) (size : Z)
| EvMutexInit (at_ : loc)                    (* successful mutex init *)
| EvMutexLock (at_ : loc)
| EvMutexUnlock (at_ : loc)
| EvMutexDestroy (at_ : loc).

(** The stream an event touches, if any. *)
Definition event_handle (e : Event) : FILEp :=
  match e with
  | EvWrite h _ | EvFlush h | EvClose h | EvSetvbuf h _ _ => Some h
  | EvOpen _ _ r => r
  | EvMutexInit _ | EvMutexLock _ | EvMutexUnlock _ | EvMutexDestroy _ => None
  end.

Definition is_mutex_event (e : Event) : bool :=
  match e with
  | EvMutexInit _ | EvMutexLock _ | EvMutexUnlock _ | EvMutexDestroy _ => true
  | _ => false
  end.

(** Bytes delivered to stream [h] by a trace, in order. *)
Fixpoint written (h : handle) (tr : list Event) : string :=
  match tr with
  | [] => ""
  | EvWrite h' s :: tr' =>
      if Pos.eqb h h' then s ++ written h tr' else written h tr'
  | _ :: tr' => written h tr'
  end.

(** Mutexes initialised and not yet destroyed, as a signed balance. *)
Fixpoint mutex_balance (tr : list Event) : Z :=
  match tr with
  | [] => 0
  | EvMutexInit _ :: tr' => 1 + mutex_balance tr'
  | EvMutexDestroy _ :: tr' => mutex_balance tr' - 1
  | _ :: tr' => mutex_balance tr'
  end.

(** *** printf-style formatting

    The conversions the logger and its callers use: [%s], [%d], [%c],
    [%%], with the [-] flag and a decimal field width (a leading [0] counts
    as part of the width; there is no precision).  A conversion whose
    argument is missing or of the wrong kind renders nothing; an unknown
    conversion character is dropped. *)

Inductive Arg := AStr (s : string) | AInt (z : Z) | AChar (c : ascii).
Definition va_list := list Arg.

Fixpoint spaces (n : nat) : string :=
  match n with O => "" | S n' => String " " (spaces n') end.

(** Field of minimum width [w]: padded on the right when [left] (the [-]
    flag), on the left otherwise; never truncated. *)
Definition pad (left : bool) (w : nat) (s : string) : string :=
  let fill := spaces (w - String.length s) in
  if left then s ++ fill else fill ++ s.

Definition dec (z : Z) : string := NilZero.string_of_int (Z.to_int z).

Definition digit_of (c : ascii) : option nat :=
  let n := nat_of_ascii c in
  if ((48 <=? n) && (n <=? 57))%nat then Some (n - 48)%nat else None.

Inductive pstate := Lit | Spec (left : bool) (width : nat).

Fixpoint format_from (st : pstate) (fmt : string) (args : va_list) : string :=
  match fmt with
  | EmptyString => ""
  | String c rest =>
      match st with
      | Lit =>
          if Ascii.eqb c "%" then format_from (Spec false 0) rest args
          else String c (format_from Lit rest args)
      | Spec l w =>
          if Ascii.eqb c "-" then format_from (Spec true w) rest args
          else match digit_of c with
          | Some d => format_from (Spec l (10 * w + d)) rest args
          | None =>
              if Ascii.eqb c "%" then String "%" (format_from Lit rest args)
              else if Ascii.eqb c "s" then
                match args with
                | AStr s :: args' => pad l w s ++ format_from Lit rest args'
                | _ :: args' => format_from Lit rest args'
                | [] => format_from Lit rest []
                end
              else if Ascii.eqb c "d" then
                match args with
                | AInt z :: args' => pad l w (dec z) ++ format_from Lit rest args'
                | _ :: args' => format_from Lit rest args'
                | [] => format_from Lit rest []
                end
              else if Ascii.eqb c "c" then
                match args with
                | AChar a :: args' =>
                    pad l w (String a "") ++ format_from Lit rest args'
                | _ :: args' => format_from Lit rest args'
                | [] => format_from Lit rest []
                end
              else format_from Lit rest args
          end
      end
  end.

Definition format (fmt : string) (args : va_list) : string :=
  format_from Lit fmt args.

(** [vsnprintf(buf, n, fmt, args)]: the rendering cut to [n - 1] bytes
    (the last byte of the buffer holds the terminator). *)
Definition vsnprintf (n : nat) (fmt : string) (args : va_list) : string :=
  substring 0 (n - 1) (format fmt args).

(** What the platform answers. *)
Record Env := mkEnv {
  env_isatty : handle -> bool;      (* isatty(fileno(h)) *)
  env_fopen : string -> string -> handle + Z;
                                    (* the new stream, or the errno fopen sets *)
  env_mutex_init : bool;            (* does initialising a mutex succeed *)
  env_now : string                  (* the current UTC time as strftime renders
                                       it with "%Y-%m-%dT%H:%M:%SZ" *)
}.

End Libc.
Import Libc.

(** ** logger.h: the data model *)

(** [LogLevel] is a C enum, hence an [int]: any value can reach the logger. *)
Definition LogLevel := Z.
Definition LOG_DEBUG : LogLevel := 10.
Definition LOG_INFO : LogLevel := 20.
Definition LOG_WARNING : LogLevel := 30.
Definition LOG_ERROR : LogLevel := 40.
Definition LOG_CRITICAL : LogLevel := 50.

(** [logger_mutex_t] is opaque; what matters is where it is in its life.
    [MtxRaw] is storage no initialiser has run on (what [memset] leaves). *)
Inductive logger_mutex_t := MtxRaw | MtxReady | MtxHeld | MtxDestroyed.

Record Logger := mkLogger {
  file : FILEp;              (* primary sink (may be NULL) *)
  stream : FILEp;            (* secondary sink, NULL to disable *)
  level : LogLevel;          (* minimum level to emit *)
  name : option string;      (* optional logger name, not owned *)
  timestamps : bool;
  colors : bool;
  owns_file : bool;          (* close [file] on logger_close *)
  locking : bool;
  lock : logger_mutex_t;
  initialized : bool
}.

(** Field assignments [lg->f = v]. *)
Definition with_file (v : FILEp) (g : Logger) : Logger :=
  mkLogger v (stream g) (level g) (name g) (timestamps g) (colors g)
           (owns_file g) (locking g) (lock g) (initialized g).
Definition with_stream (v : FILEp) (g : Logger) : Logger :=
  mkLogger (file g) v (level g) (name g) (timestamps g) (colors g)
           (owns_file g) (locking g) (lock g) (initialized g).
Definition with_level (v : LogLevel) (g : Logger) : Logger :=
  mkLogger (file g) (stream g) v (name g) (timestamps g) (colors g)
           (owns_file g) (locking g) (lock g) (initialized g).
Definition with_name (v : option string) (g : Logger) : Logger :=
  mkLogger (file g) (stream g) (level g) v (timestamps g) (colors g)
           (owns_file g) (locking g) (lock g) (initialized g).
Definition with_timestamps (v : bool) (g : Logger) : Logger :=
  mkLogger (file g) (stream g) (level g) (name g) v (colors g)
           (owns_file g) (locking g) (lock g) (initialized g).
Definition with_colors (v : bool) (g : Logger) : Logger :=
  mkLogger (file g) (stream g) (level g) (name g) (timestamps g) v
           (owns_file g) (locking g) (lock g) (initialized g).
Definition with_owns_file (v : bool) (g : Logger) : Logger :=
  mkLogger (file g) (stream g) (level g) (name g) (timestamps g) (colors g)
           v (locking g) (lock g) (initialized g).
Definition with_locking (v : bool) (g : Logger) : Logger :=
  mkLogger (file g) (stream g) (level g) (name g) (timestamps g) (colors g)
           (owns_file g) v (lock g) (initialized g).
Definition with_lock (v : logger_mutex_t) (g : Logger) : Logger :=
  mkLogger (file g) (stream g) (level g) (name g) (timestamps g) (colors g)
           (owns_file g) (locking g) v (initialized g).
Definition with_initialized (v : bool) (g : Logger) : Logger :=
  mkLogger (file g) (stream g) (level g) (name g) (timestamps g) (colors g)
           (owns_file g) (locking g) (lock g) v.

(** [memset(lg, 0, sizeof *lg)]. *)
Definition zeroed : Logger :=
  mkLogger None None 0 None false false false false MtxRaw false.

(** ** The world and its monad *)

Record World := mkWorld {
  errno : Z;
  mem : loc -> Logger;
  trace : list Event
}.

Definition M (A : Type) : Type := World -> A * World.

Definition ret {A} (a : A) : M A := fun w => (a, w).
Definition bind {A B} (c : M A) (k : A -> M B) : M B :=
  fun w => let (a, w') := c w in k a w'.

Notation "x <- c ;; k" := (bind c (fun x => k))
  (at level 100, c at next level, right associativity).
Notation "c ;; k" := (bind c (fun _ => k))
  (at level 100, right associativity).

Definition set_errno (e : Z) : M unit :=
  fun w => (tt, mkWorld e (mem w) (trace w)).
Definition emit (ev : Event) : M unit :=
  fun w => (tt, mkWorld (errno w) (mem w) (trace w ++ [ev])%list).
Definition load (l : loc) : M Logger :=
  fun w => (mem w l, w).
Definition modify (l : loc) (f : Logger -> Logger) : M unit :=
  fun w => (tt, mkWorld (errno w) (<[l := f (mem w l)]> (mem w)) (trace w)).
Definition when (b : bool) (c : M unit) : M unit :=
  if b then c else ret tt.

(** World reached, and value returned, by running a computation. *)
Definition exec {A} (c : M A) (w : World) : World := snd (c w).
Definition eval {A} (c : M A) (w : World) : A := fst (c w).

(** Events a computation appended when it took [w] to [w']. *)
Definition appended (w w' : World) (delta : list Event) : Prop :=
  trace w' = (trace w ++ delta)%list.

(** ** stdio and the mutex, as the logger calls them

    Texts are C strings (no NUL inside); the stream calls are taken to
    succeed, the logger ignoring their results. *)

Definition fputs (s : string) (out : handle) : M unit := emit (EvWrite out s).
Definition fputc (c : ascii) (out : handle) : M unit :=
  emit (EvWrite out (String c "")).
Definition fprintf (out : handle) (fmt : string) (args : va_list) : M unit :=
  emit (EvWrite out (format fmt args)).
Definition fflush (out : handle) : M unit := emit (EvFlush out).
Definition fclose (out : handle) : M unit := emit (EvClose out).
Definition setvbuf (out : handle) (m : bufmode) (size : Z) : M unit :=
  emit (EvSetvbuf out m size).

Section Platform.
Variable E : Env.

(** [fopen]: on failure errno carries the cause. *)
Definition fopen (path mode : string) : M FILEp :=
  match env_fopen E path mode with
  | inl h => emit (EvOpen path mode (Some h)) ;; ret (Some h)
  | inr e => set_errno e ;; emit (EvOpen path mode None) ;; ret None
  end.

(** [isatty(fileno(h))]: answering "not a terminal" sets errno to ENOTTY. *)
Definition LOGGER_ISATTY (h : handle) : M bool :=
  if env_isatty E h then ret true else set_errno ENOTTY ;; ret false.

(** Mutex operations on [lg->lock].  Each call is recorded in the trace
    whatever state the mutex is in, and the life-cycle state moves only
    along its defined transitions.  The platform leaves lock, unlock and
    destroy undefined on a mutex that is not initialised; whether a run
    stays within what is defined is read off its trace by [mutex_protocol]
    below, not decided here. *)
Definition LOGGER_MUTEX_INIT_OK (l : loc) : M bool :=
  if env_mutex_init E
  then modify l (with_lock MtxReady) ;; emit (EvMutexInit l) ;; ret true
  else ret false.

Definition LOGGER_MUTEX_LOCK (l : loc) : M unit :=
  modify l (fun g => match lock g with MtxReady => with_lock MtxHeld g | _ => g end) ;;
  emit (EvMutexLock l).

Definition LOGGER_MUTEX_UNLOCK (l : loc) : M unit :=
  modify l (fun g => match lock g with MtxHeld => with_lock MtxReady g | _ => g end) ;;
  emit (EvMutexUnlock l).

Definition LOGGER_MUTEX_DESTROY (l : loc) : M unit :=
  modify l (with_lock MtxDestroyed) ;; emit (EvMutexDestroy l).

(** [now_iso8601(buf, n)]: the platform's clock, already rendered. *)
Definition now_iso8601 : M string := ret (env_now E).

(** ** logger.c *)

Definition level_name (lv : LogLevel) : string :=
  if lv =? LOG_DEBUG then "DEBUG"
  else if lv =? LOG_INFO then "INFO"
  else if lv =? LOG_WARNING then "WARNING"
  else if lv =? LOG_ERROR then "ERROR"
  else if lv =? LOG_CRITICAL then "CRITICAL"
  else "LVL?".

Definition ESC : ascii := ascii_of_nat 27.
Definition LF : ascii := ascii_of_nat 10.

Definition level_color (lv : LogLevel) : string :=
  if lv =? LOG_DEBUG then String ESC "[2m"
  else if lv =? LOG_INFO then String ESC "[0m"
  else if lv =? LOG_WARNING then String ESC "[33m"
  else if lv =? LOG_ERROR then String ESC "[31m"
  else if lv =? LOG_CRITICAL then String ESC "[1;41m"
  else String ESC "[0m".

Definition color_reset : string := String ESC "[0m".

Definition is_tty (s : FILEp) : M bool :=
  match s with
  | None => ret false
  | Some h => LOGGER_ISATTY h
  end.

Definition init_common (lg : option loc) (lv : LogLevel) : M bool :=
  match lg with
  | None => set_errno EINVAL ;; ret false
  | Some l =>
      modify l (fun _ => zeroed) ;;
      modify l (with_level lv) ;;
      modify l (with_timestamps true) ;;
      modify l (with_colors true) ;;
      modify l (with_locking true) ;;
      ok <- LOGGER_MUTEX_INIT_OK l ;;
      if negb ok then ret false else
      modify l (with_initialized true) ;;
      ret true
  end.

Definition logger_init_stream (lg : option loc) (stream : FILEp)
                              (lv : LogLevel) : M bool :=
  match lg, stream with
  | Some l, Some s =>
      ok <- init_common lg lv ;;
      if negb ok then ret false else
      modify l (with_stream stream) ;;
      tty <- LOGGER_ISATTY s ;;
      when tty (setvbuf s IOLBF 0) ;;
      ret true
  | _, _ => set_errno EINVAL ;; ret false
  end.

Definition logger_init_file (lg : option loc) (path : option string)
                            (lv : LogLevel) : M bool :=
  match lg, path with
  | Some l, Some p =>
      ok <- init_common lg lv ;;
      if negb ok then ret false else
      fp <- fopen p "a" ;;
      match fp with
      | None => LOGGER_MUTEX_DESTROY l ;; ret false
      | Some f =>
          modify l (with_file fp) ;;
          modify l (with_owns_file true) ;;
          setvbuf f IOFBF (Z.shiftl 1 20) ;;
          ret true
      end
  | _, _ => set_errno EINVAL ;; ret false
  end.

Definition logger_init_dual (lg : option loc) (path : option string)
                            (stream : FILEp) (lv : LogLevel) : M bool :=
  match lg, path, stream with
  | Some l, Some _, Some s =>
      ok <- logger_init_file lg path lv ;;
      if negb ok then ret false else
      modify l (with_stream stream) ;;
      tty <- LOGGER_ISATTY s ;;
      when tty (setvbuf s IOLBF 0) ;;
      ret true
  | _, _, _ => set_errno EINVAL ;; ret false
  end.

Definition logger_close (lg : option loc) : M unit :=
  match lg with
  | None => ret tt
  | Some l =>
      g <- load l ;;
      match file g with Some f => fflush f | None => ret tt end ;;
      match stream g with Some s => fflush s | None => ret tt end ;;
      match file g with
      | Some f => when (owns_file g) (fclose f)
      | None => ret tt
      end ;;
      modify l (with_file None) ;;
      modify l (with_stream None) ;;
      LOGGER_MUTEX_DESTROY l ;;
      modify l (with_initialized false)
  end.

Definition logger_set_level (lg : option loc) (lv : LogLevel) : M unit :=
  match lg with
  | None => set_errno EINVAL
  | Some l => modify l (with_level lv)
  end.

Definition logger_set_name (lg : option loc) (nm : option string) : M unit :=
  match lg with
  | None => set_errno EINVAL
  | Some l => modify l (with_name nm)
  end.

Definition logger_enable_timestamps (lg : option loc) (on : bool) : M unit :=
  match lg with
  | None => set_errno EINVAL
  | Some l => modify l (with_timestamps on)
  end.

Definition logger_enable_colors (lg : option loc) (on : bool) : M unit :=
  match lg with
  | None => set_errno EINVAL
  | Some l => modify l (with_colors on)
  end.

Definition logger_enable_locking (lg : option loc) (on : bool) : M unit :=
  match lg with
  | None => set_errno EINVAL
  | Some l => modify l (with_locking on)
  end.

Definition emit_one (out : FILEp) (colorize : bool) (color : string)
                    (timestamp : string) (nm : option string)
                    (lv : LogLevel) (srcfile : string) (line : Z)
                    (func : string) (msg : string) : M unit :=
  match out with
  | None => ret tt
  | Some o =>
      when colorize (fputs color o) ;;
      when (negb (String.eqb timestamp "")) (fprintf o "%s " [AStr timestamp]) ;;
      match nm with
      | Some n => fprintf o "[%s] " [AStr n]
      | None => ret tt
      end ;;
      fprintf o "%-8s " [AStr (level_name lv)] ;;
      fprintf o "%s:%d:%s: " [AStr srcfile; AInt line; AStr func] ;;
      fputs msg o ;;
      fputc LF o ;;
      when colorize (fputs color_reset o) ;;
      fflush o
  end.

(** The fields of [*lg] the emission reads are loaded once: the only write
    between the reads is the mutex call, which changes [lock] alone. *)
Definition logger_vlog_impl (lg : option loc) (lv : LogLevel) (srcfile : string)
                            (line : Z) (func : string) (fmt : option string)
                            (args : va_list) : M unit :=
  match lg, fmt with
  | Some l, Some f =>
      g <- load l ;;
      if lv <? level g then ret tt else
      when (locking g) (LOGGER_MUTEX_LOCK l) ;;
      ts <- (if timestamps g then now_iso8601 else ret "") ;;
      let buf := vsnprintf 2048 f args in
      let color := level_color lv in
      stream_color <- (if colors g
                       then match stream g with
                            | Some _ => is_tty (stream g)
                            | None => ret false
                            end
                       else ret false) ;;
      let file_color := false in
      match stream g with
      | Some _ => emit_one (stream g) stream_color color ts (name g) lv
                           srcfile line func buf
      | None => ret tt
      end ;;
      match file g with
      | Some _ => emit_one (file g) file_color "" ts (name g) lv
                           srcfile line func buf
      | None => ret tt
      end ;;
      when (locking g) (LOGGER_MUTEX_UNLOCK l)
  | _, _ => set_errno EINVAL
  end.

Definition logger_log_impl (lg : option loc) (lv : LogLevel) (srcfile : string)
                           (line : Z) (func : string) (fmt : option string)
                           (args : va_list) : M unit :=
  match lg, fmt with
  | Some _, Some _ => logger_vlog_impl lg lv srcfile line func fmt args
  | _, _ => set_errno EINVAL
  end.

Definition logger_write (lg : option loc) (lv : LogLevel) (srcfile : string)
                        (line : Z) (func : string) (msg : option string)
                        : M unit :=
  match lg, msg with
  | Some l, Some m =>
      g <- load l ;;
      if lv <? level g then ret tt else
      when (locking g) (LOGGER_MUTEX_LOCK l) ;;
      ts <- (if timestamps g then now_iso8601 else ret "") ;;
      let color := level_color lv in
      stream_color <- (if colors g
                       then match stream g with
                            | Some _ => is_tty (stream g)
                            | None => ret false
                            end
                       else ret false) ;;
      let file_color := false in
      match stream g with
      | Some _ => emit_one (stream g) stream_color color ts (name g) lv
                           srcfile line func m
      | None => ret tt
      end ;;
      match file g with
      | Some _ => emit_one (file g) file_color "" ts (name g) lv
                           srcfile line func m
      | None => ret tt
      end ;;
      when (locking g) (LOGGER_MUTEX_UNLOCK l)
  | _, _ => set_errno EINVAL
  end.

(** The two public ways to emit, with the message present. *)
Inductive entry :=
| Variadic (fmt : string) (args : va_list)     (* logger_log_impl, LOG_* macros *)
| Preformatted (msg : string).                 (* logger_write *)

Definition emission (en : entry) (lg : option loc) (lv : LogLevel)
                    (srcfile : string) (line : Z) (func : string) : M unit :=
  match en with
  | Variadic fmt args => logger_log_impl lg lv srcfile line func (Some fmt) args
  | Preformatted msg => logger_write lg lv srcfile line func (Some msg)
  end.

End Platform.

(** ** Observations used to state the properties *)

(** The text an entry point hands to the sinks: the variadic path renders
    into its 2048-byte buffer, the other takes the caller's string as is. *)
Definition message_text (en : entry) : string :=
  match en with
  | Variadic fmt args => vsnprintf 2048 fmt args
  | Preformatted msg => msg
  end.

(** Time stamp text of one emission. *)
Definition stamp (E : Env) (g : Logger) : string :=
  if timestamps g then env_now E else "".

(** Following the spec's output line format
    [<timestamp >[<name> ]<LEVEL padded to 8 cols> <file>:<line>:<func>: <message>\n]:
    the level name left-justified in a field of at least 8 columns ... *)
Definition level_field (lv : LogLevel) : string :=
  level_name lv ++ spaces (8 - String.length (level_name lv)).

(** ... the part of the line in front of the level field ... *)
Definition line_prefix (ts : string) (nm : option string) : string :=
  (if String.eqb ts "" then "" else ts ++ " ") ++
  match nm with Some n => "[" ++ n ++ "] " | None => "" end.

(** ... and the part behind it. *)
Definition line_suffix (srcfile : string) (line : Z) (func msg : string) : string :=
  srcfile ++ ":" ++ dec line ++ ":" ++ func ++ ": " ++ msg ++ String LF "".

Definition line_text (ts : string) (nm : option string) (lv : LogLevel)
                     (srcfile : string) (line : Z) (func msg : string) : string :=
  line_prefix ts nm ++ level_field lv ++ " " ++ line_suffix srcfile line func msg.

(** A line between the colour of its level and the reset sequence. *)
Definition colorized (lv : LogLevel) (text : string) : string :=
  level_color lv ++ text ++ color_reset.

(** The events of a trace all address stream [o] and deliver [bytes] to it;
    an absent sink gets no event at all. *)
Definition sink_chunk (out : FILEp) (chunk : list Event) (bytes : string) : Prop :=
  match out with
  | None => chunk = []
  | Some o => Forall (fun e => event_handle e = Some o) chunk /\ written o chunk = bytes
  end.

(** Does a text hold the escape character, the ANSI introducer [ESC [],
    a conversion specifier's percent sign? *)
Fixpoint esc_free (s : string) : bool :=
  match s with
  | EmptyString => true
  | String c r => negb (Ascii.eqb c ESC) && esc_free r
  end.

Fixpoint has_csi (s : string) : bool :=
  match s with
  | EmptyString => false
  | String c r =>
      (Ascii.eqb c ESC && match r with String d _ => Ascii.eqb d "[" | _ => false end)
      || has_csi r
  end.

Fixpoint percent_free (s : string) : bool :=
  match s with
  | EmptyString => true
  | String c r => negb (Ascii.eqb c "%") && percent_free r
  end.

Definition name_esc_free (nm : option string) : bool :=
  match nm with Some n => esc_free n | None => true end.

(** The five configuration setters behind one type. *)
Inductive setter :=
| SetLevel (lv : LogLevel)
| SetName (nm : option string)
| EnableTimestamps (on : bool)
| EnableColors (on : bool)
| EnableLocking (on : bool).

Definition run_setter (s : setter) (lg : option loc) : M unit :=
  match s with
  | SetLevel lv => logger_set_level lg lv
  | SetName nm => logger_set_name lg nm
  | EnableTimestamps on => logger_enable_timestamps lg on
  | EnableColors on => logger_enable_colors lg on
  | EnableLocking on => logger_enable_locking lg on
  end.

(** The logger a setter is expected to leave behind: the one field named by
    the setter replaced, every other field as it was. *)
Definition assigned (s : setter) (g : Logger) : Logger :=
  match s with
  | SetLevel lv =>
      mkLogger (file g) (stream g) lv (name g) (timestamps g) (colors g)
               (owns_file g) (locking g) (lock g) (initialized g)
  | SetName nm =>
      mkLogger (file g) (stream g) (level g) nm (timestamps g) (colors g)
               (owns_file g) (locking g) (lock g) (initialized g)
  | EnableTimestamps on =>
      mkLogger (file g) (stream g) (level g) (name g) on (colors g)
               (owns_file g) (locking g) (lock g) (initialized g)
  | EnableColors on =>
      mkLogger (file g) (stream g) (level g) (name g) (timestamps g) on
               (owns_file g) (locking g) (lock g) (initialized g)
  | EnableLocking on =>
      mkLogger (file g) (stream g) (level g) (name g) (timestamps g) (colors g)
               (owns_file g) on (lock g) (initialized g)
  end.

(** The three initialisers behind one type, with their arguments. *)
Inductive initializer :=
| InitStream (stream : FILEp)
| InitFile (path : option string)
| InitDual (path : option string) (stream : FILEp).

Definition run_init (E : Env) (i : initializer) (lg : option loc)
                    (lv : LogLevel) : M bool :=
  match i with
  | InitStream s => logger_init_stream E lg s lv
  | InitFile p => logger_init_file E lg p lv
  | InitDual p s => logger_init_dual E lg p s lv
  end.

(** Is one of the arguments the call requires a null pointer? *)
Definition null_argument (i : initializer) (lg : option loc) : bool :=
  match lg with
  | None => true
  | Some _ =>
      match i with
      | InitStream None | InitFile None
      | InitDual None _ | InitDual _ None => true
      | _ => false
      end
  end.

(** A run of one character, and concrete surroundings to evaluate in. *)
Fixpoint repeat_char (c : ascii) (n : nat) : string :=
  match n with O => "" | S n' => String c (repeat_char c n') end.

Definition ENOENT : Z := 2.

(** The terminal, the stream [app.log] opens as (any other path fails like
    a missing directory does), a stream that is no terminal, and the address
    of the logger. *)
Definition demo_tty : handle := 2%positive.
Definition demo_file : handle := 7%positive.
Definition demo_pipe : handle := 5%positive.
Definition demo_lg : loc := 1%positive.

Definition demo_env : Env :=
  mkEnv (fun h => Pos.eqb h demo_tty)
        (fun path _ => if String.eqb path "app.log" then inl demo_file else inr ENOENT)
        true
        "2025-09-03T21:07:15Z".

(** Errno holds the test suite's sentinel, logger storage is blank. *)
Definition demo_world : World := mkWorld 127 (fun _ => zeroed) [].

(** A logger as [logger_init_dual] on [app.log] and stream [s] leaves it,
    and a world whose storage holds a given logger. *)
Definition dual_logger (s : handle) (lv : LogLevel) : Logger :=
  mkLogger (Some demo_file) (Some s) lv None true true true true MtxReady true.

Definition world_with (g : Logger) : World := mkWorld 127 (fun _ => g) [].

(** The colour decision of one emission: colours enabled and the stream
    sink present and a terminal. *)
Definition wants_color (E : Env) (g : Logger) : bool :=
  colors g && match stream g with Some s => env_isatty E s | None => false end.

(** The mutex call an emission makes when locking is enabled. *)
Definition guarded (g : Logger) (e : Event) : list Event :=
  if locking g then [e] else [].

(** Stream calls of one [logger_close] on logger [g]: flush what is bound,
    then close the file if it is owned. *)
Definition close_io (g : Logger) : list Event :=
  (match file g with Some o => [EvFlush o] | None => [] end ++
   match stream g with Some s => [EvFlush s] | None => [] end ++
   match file g with
   | Some o => if owns_file g then [EvClose o] else []
   | None => []
   end)%list.

(** The texts an emission takes from its caller and from the clock hold no
    escape character. *)
Definition texts_esc_free (E : Env) (g : Logger) (srcfile func : string)
                          (en : entry) : bool :=
  esc_free (stamp E g) && name_esc_free (name g) && esc_free srcfile
  && esc_free func && esc_free (message_text en).

(** ** Further observations *)

(** [g'] is [g] up to the state of its mutex. *)
Definition same_but_lock (g g' : Logger) : Prop := g' = with_lock (lock g') g.

(** The logger every successful initialiser starts from: the caller's level,
    the three toggles on, no name, a ready mutex, the flag raised. *)
Definition fresh_logger (lv : LogLevel) (fl st : FILEp) (owns : bool) : Logger :=
  mkLogger fl st lv None true true owns true MtxReady true.

(** The buffering call made for a stream sink: line buffering, on a
    terminal only. *)
Definition line_buffering (E : Env) (s : handle) : list Event :=
  if env_isatty E s then [EvSetvbuf s IOLBF 0] else [].

(** Does a trace use the mutex of the logger at [l] as its interface
    allows: initialised before it is locked, unlocked or destroyed, and not
    used again once destroyed?  [live] says whether it is initialised when
    the trace starts. *)
Fixpoint mutex_protocol (l : loc) (live : bool) (tr : list Event) : bool :=
  match tr with
  | [] => true
  | EvMutexInit l' :: tr' =>
      if Pos.eqb l l' then mutex_protocol l true tr' else mutex_protocol l live tr'
  | EvMutexLock l' :: tr' | EvMutexUnlock l' :: tr' =>
      if Pos.eqb l l' then live && mutex_protocol l live tr'
      else mutex_protocol l live tr'
  | EvMutexDestroy l' :: tr' =>
      if Pos.eqb l l' then live && mutex_protocol l false tr'
      else mutex_protocol l live tr'
  | _ :: tr' => mutex_protocol l live tr'
  end.

Definition is_write (e : Event) : bool :=
  match e with EvWrite _ _ => true | _ => false end.

Definition is_close_of (h : handle) (e : Event) : bool :=
  match e with EvClose h' => Pos.eqb h h' | _ => false end.

Definition is_stream_output (e : Event) : bool :=
  match e with EvWrite _ _ | EvFlush _ | EvClose _ => true | _ => false end.

(** ** test_log.c: how the tests read a sink back *)

Fixpoint count_newlines (s : string) : nat :=
  match s with
  | EmptyString => O
  | String c r => ((if Ascii.eqb c LF then 1 else 0) + count_newlines r)%nat
  end.

Definition isdigit (c : ascii) : bool :=
  let n := nat_of_ascii c in ((48 <=? n) && (n <=? 57))%nat.

(** [s[i]] of a C string: past the last character sits the terminator. *)
Definition char_at (s : string) (i : nat) : ascii :=
  match String.get i s with Some c => c | None => zero end.

Definition has_iso8601_prefix (s : option string) : bool :=
  match s with
  | None => false
  | Some s =>
      if negb (forallb (fun i => isdigit (char_at s i)) (seq 0 4)) then false else
      if negb (Ascii.eqb (char_at s 4) "-") then false else
      if negb (isdigit (char_at s 5)) || negb (isdigit (char_at s 6)) then false else
      if negb (Ascii.eqb (char_at s 7) "-") then false else
      if negb (isdigit (char_at s 8)) || negb (isdigit (char_at s 9)) then false else
      if negb (Ascii.eqb (char_at s 10) "T") then false else
      if negb (isdigit (char_at s 11)) || negb (isdigit (char_at s 12)) then false else
      if negb (Ascii.eqb (char_at s 13) ":") then false else
      if negb (isdigit (char_at s 14)) || negb (isdigit (char_at s 15)) then false else
      if negb (Ascii.eqb (char_at s 16) ":") then false else
      if negb (isdigit (char_at s 17)) || negb (isdigit (char_at s 18)) then false else
      if negb (Ascii.eqb (char_at s 19) "Z") then false else
      true
  end.

(** ** The rendering step of [now_iso8601]

    [struct tm] as [gmtime_r] fills it, and [strftime] for the conversions
    of the logger's format: [%Y] is the year in decimal, [%m %d %H %M %S]
    are decimal numbers filled with zeros to two digits. *)
Record tm := mkTm {
  tm_sec : Z; tm_min : Z; tm_hour : Z; tm_mday : Z; tm_mon : Z; tm_year : Z
}.

Definition two_digits (z : Z) : string :=
  let d := dec z in
  if (String.length d <? 2)%nat then String "0" d else d.

Fixpoint strftime_from (in_spec : bool) (fmt : string) (t : tm) : string :=
  match fmt with
  | EmptyString => ""
  | String c rest =>
      if in_spec then
        (if Ascii.eqb c "Y" then dec (tm_year t + 1900)
         else if Ascii.eqb c "m" then two_digits (tm_mon t + 1)
         else if Ascii.eqb c "d" then two_digits (tm_mday t)
         else if Ascii.eqb c "H" then two_digits (tm_hour t)
         else if Ascii.eqb c "M" then two_digits (tm_min t)
         else if Ascii.eqb c "S" then two_digits (tm_sec t)
         else if Ascii.eqb c "%" then "%"
         else "") ++ strftime_from false rest t
      else if Ascii.eqb c "%" then strftime_from true rest t
      else String c (strftime_from false rest t)
  end.

(** [strftime(buf, n, fmt, &t)] into a zeroed buffer: the text if it fits
    with its terminator; otherwise nothing usable is left. *)
Definition strftime (n : nat) (fmt : string) (t : tm) : option string :=
  let r := strftime_from false fmt t in
  if (String.length r <? n)%nat then Some r else None.

Definition now_iso8601_of (t : tm) (n : nat) : option string :=
  strftime n "%Y-%m-%dT%H:%M:%SZ" t.

(** Texts of exactly two, of exactly four decimal digits. *)
Definition two_digit_text (s : string) : bool :=
  match s with
  | String a (String b EmptyString) => isdigit a && isdigit b
  | _ => false
  end.

Definition four_digit_text (s : string) : bool :=
  match s with
  | String a (String b (String c (String d EmptyString))) =>
      isdigit a && isdigit b && isdigit c && isdigit d
  | _ => false
  end.

(** A broken-down UTC time of the years 1000 to 9999. *)
Definition calendar_time (t : tm) : Prop :=
  -900 <= tm_year t <= 8099 /\ 0 <= tm_mon t <= 11 /\ 1 <= tm_mday t <= 31 /\
  0 <= tm_hour t <= 23 /\ 0 <= tm_min t <= 59 /\ 0 <= tm_sec t <= 60.

(** Any value an [int] field can hold. *)
Definition int_range (z : Z) : Prop := -2147483648 <= z <= 2147483647.

(** The stream calls of an initialiser once its mutex is initialised and
    its file, if it asks for one, has opened as [f]. *)
Definition init_io (E : Env) (i : initializer) (f : handle) : list Event :=
  match i with
  | InitStream (Some s) => line_buffering E s
  | InitFile (Some p) => [EvOpen p "a" (Some f); EvSetvbuf f IOFBF 1048576]
  | InitDual (Some p) (Some s) =>
      [EvOpen p "a" (Some f); EvSetvbuf f IOFBF 1048576] ++ line_buffering E s
  | _ => []
  end%list.

(** Does the open an initialiser asks for succeed with stream [f]?  (The
    stream initialiser opens nothing.) *)
Definition opens_as (E : Env) (i : initializer) (f : handle) : Prop :=
  match i with
  | InitStream _ => True
  | InitFile (Some p) | InitDual (Some p) _ => env_fopen E p "a" = inl f
  | _ => False
  end.

(** The sinks a successful initialiser binds. *)
Definition init_file_sink (i : initializer) (f : handle) : FILEp :=
  match i with InitStream _ => None | _ => Some f end.
Definition init_stream_sink (i : initializer) : FILEp :=
  match i with InitStream s | InitDual _ s => s | InitFile _ => None end.

(** Files opened and not yet closed, as a signed balance. *)
Fixpoint open_balance (tr : list Event) : Z :=
  match tr with
  | [] => 0
  | EvOpen _ _ (Some _) :: tr' => 1 + open_balance tr'
  | EvClose _ :: tr' => open_balance tr' - 1
  | _ :: tr' => open_balance tr'
  end.

(** The mutex of a logger after one lock and unlock. *)
Definition relocked (g : Logger) : Logger :=
  match lock g with
  | MtxReady | MtxHeld => with_lock MtxReady g
  | _ => g
  end.

(** errno after the colour decision of an emission on logger [g]. *)
Definition probe_errno (E : Env) (g : Logger) (e : Z) : Z :=
  if colors g
  then match stream g with
       | Some s => if env_isatty E s then e else ENOTTY
       | None => e
       end
  else e.

(** The texts one call of [emit_one] hands to its stream, in order. *)
Definition emit_one_texts (c : bool) (col ts : string) (nm : option string)
    (lv : LogLevel) (srcfile : string) (line : Z) (func msg : string) : list string :=
  ((if c then [col] else []) ++
   (if String.eqb ts "" then [] else [(ts ++ " ")%string]) ++
   match nm with Some n => [("[" ++ n ++ "] ")%string] | None => [] end ++
   [(level_field lv ++ " ")%string;
    (srcfile ++ ":" ++ dec line ++ ":" ++ func ++ ": ")%string;
    msg; String LF ""] ++
   (if c then [color_reset] else []))%list.

(** A chunk that is a run of writes to [o] delivering [bytes], closed by
    one flush of [o]; an absent sink gets no event. *)
Definition flushed_line (out : FILEp) (chunk : list Event) (bytes : string) : Prop :=
  match out with
  | None => chunk = []
  | Some o =>
      exists ws, chunk = (ws ++ [EvFlush o])%list /\
                 forallb is_write ws = true /\
                 Forall (fun e => event_handle e = Some o) ws /\
                 written o ws = bytes
  end.

(** How many of the sinks of [g] are stream [h]. *)
Definition bound_count (g : Logger) (h : handle) : nat :=
  ((if decide (stream g = Some h) then 1 else 0) +
   (if decide (file g = Some h) then 1 else 0))%nat.

(** The texts an emission takes from its caller and from the clock hold no
    line feed. *)
Definition texts_lf_free (E : Env) (g : Logger) (srcfile func : string)
                         (en : entry) : Prop :=
  count_newlines (stamp E g) = O /\
  (forall n, name g = Some n -> count_newlines n = O) /\
  count_newlines srcfile = O /\ count_newlines func = O /\
  count_newlines (message_text en) = O.

(** Do two setters assign the same field? *)
Definition same_field (s1 s2 : setter) : bool :=
  match s1, s2 with
  | SetLevel _, SetLevel _ | SetName _, SetName _
  | EnableTimestamps _, EnableTimestamps _ | EnableColors _, EnableColors _
  | EnableLocking _, EnableLocking _ => true
  | _, _ => false
  end.

(** * Properties *)

(** ** Strings and traces *)

Lemma append_assoc (a b c : string) : (a ++ b) ++ c = a ++ b ++ c.
Proof. induction a as [|x a IH]; cbn; [reflexivity | now rewrite IH]. Qed.

Lemma append_nil_r (a : string) : a ++ "" = a.
Proof. induction a as [|x a IH]; cbn; [reflexivity | now rewrite IH]. Qed.

Lemma length_append (a b : string) :
  String.length (a ++ b) = (String.length a + String.length b)%nat.
Proof. induction a as [|x a IH]; cbn; [reflexivity | now rewrite IH]. Qed.

Lemma written_app (h : handle) (a b : list Event) :
  written h (a ++ b)%list = written h a ++ written h b.
Proof.
  induction a as [|e a IH]; cbn; [reflexivity|].
  destruct e; try exact IH.
  destruct (Pos.eqb h h0); [now rewrite IH, append_assoc | exact IH].
Qed.

Lemma mutex_balance_app (a b : list Event) :
  mutex_balance (a ++ b)%list = mutex_balance a + mutex_balance b.
Proof.
  induction a as [|e a IH]; cbn; [reflexivity|]; destruct e; lia.
Qed.

(** A chunk addressed to one stream delivers nothing to any other. *)
Lemma written_elsewhere (o h : handle) (chunk : list Event) :
  Forall (fun e => event_handle e = Some o) chunk -> h <> o ->
  written h chunk = "".
Proof.
  intros Hall Hne; induction Hall as [|e chunk He _ IH]; cbn; [reflexivity|].
  destruct e; try exact IH.
  cbn in He; injection He as ->.
  destruct (Pos.eqb_spec h o); [contradiction | exact IH].
Qed.

(** ** Formatting *)

Lemma format_percent_free (s : string) (args : va_list) :
  percent_free s = true -> format s args = s.
Proof.
  unfold format; induction s as [|c s IH]; cbn; [reflexivity|].
  intros H; apply andb_prop in H as [Hc Hs].
  destruct (Ascii.eqb c "%"); [discriminate|].
  now rewrite IH.
Qed.

Lemma substring_all (s : string) (n : nat) :
  (String.length s <= n)%nat -> substring 0 n s = s.
Proof.
  revert n; induction s as [|c s IH]; intros n Hn.
  - destruct n; reflexivity.
  - destruct n; cbn in *; [lia|]. rewrite IH; [reflexivity | lia].
Qed.

Lemma vsnprintf_verbatim (s : string) (args : va_list) :
  percent_free s = true -> (String.length s < 2048)%nat ->
  vsnprintf 2048 s args = s.
Proof.
  intros Hp Hl; unfold vsnprintf.
  rewrite format_percent_free by exact Hp.
  apply substring_all; cbn; lia.
Qed.

Lemma format_stamp (ts : string) : format "%s " [AStr ts] = ts ++ " ".
Proof. reflexivity. Qed.

Lemma format_name (n : string) : format "[%s] " [AStr n] = "[" ++ n ++ "] ".
Proof. reflexivity. Qed.

Lemma format_level (s : string) :
  format "%-8s " [AStr s] = (s ++ spaces (8 - String.length s)) ++ " ".
Proof. reflexivity. Qed.

Lemma format_location (f fn : string) (n : Z) :
  format "%s:%d:%s: " [AStr f; AInt n; AStr fn] =
  f ++ ":" ++ dec n ++ ":" ++ fn ++ ": ".
Proof.
  unfold format; cbn. unfold pad; cbn. now rewrite !append_assoc.
Qed.

(** ** Running the monad *)

(** One statement at a time. *)
Lemma bind_bind {A B C} (c : M A) (k1 : A -> M B) (k2 : B -> M C) (w : World) :
  bind (bind c k1) k2 w = bind c (fun x => bind (k1 x) k2) w.
Proof. unfold bind; now destruct (c w). Qed.

Lemma bind_ret {A B} (a : A) (k : A -> M B) (w : World) :
  bind (ret a) k w = k a w.
Proof. reflexivity. Qed.

Lemma bind_load {B} (l : loc) (k : Logger -> M B) (w : World) :
  bind (load l) k w = k (mem w l) w.
Proof. reflexivity. Qed.

Lemma bind_emit {B} (e : Event) (k : unit -> M B) (w : World) :
  bind (emit e) k w = k tt (mkWorld (errno w) (mem w) (trace w ++ [e])%list).
Proof. reflexivity. Qed.

Lemma bind_modify {B} (l : loc) (f : Logger -> Logger) (k : unit -> M B) (w : World) :
  bind (modify l f) k w
  = k tt (mkWorld (errno w) (<[l := f (mem w l)]> (mem w)) (trace w)).
Proof. reflexivity. Qed.

Lemma bind_set_errno {B} (e : Z) (k : unit -> M B) (w : World) :
  bind (set_errno e) k w = k tt (mkWorld e (mem w) (trace w)).
Proof. reflexivity. Qed.

Lemma bind_run {A B} (c : M A) (k : A -> M B) (w w1 : World) (a : A) :
  c w = (a, w1) -> bind c k w = k a w1.
Proof. unfold bind; now intros ->. Qed.

Ltac steps :=
  repeat (rewrite ?bind_bind, ?bind_ret, ?bind_load, ?bind_emit, ?bind_modify,
            ?bind_set_errno;
          cbn [errno mem trace when negb]).

(** ** One sink *)

Ltac run_monad :=
  unfold when, fputs, fputc, fprintf, fflush, fclose, setvbuf, load, modify,
    set_errno, emit, bind, ret; cbn -[format written level_name level_color].

Ltac norm_string :=
  repeat (progress (rewrite ?append_assoc, ?append_nil_r; cbn [append])).

Lemma emit_one_run (o : handle) (c : bool) (col ts : string) (nm : option string)
    (lv : LogLevel) (f : string) (ln : Z) (fn msg : string) (w : World) :
  exists chunk,
    emit_one (Some o) c col ts nm lv f ln fn msg w
      = (tt, mkWorld (errno w) (mem w) (trace w ++ chunk)%list) /\
    sink_chunk (Some o) chunk
      ((if c then col else "") ++ line_text ts nm lv f ln fn msg
                               ++ (if c then color_reset else "")).
Proof.
  unfold emit_one, sink_chunk, line_text, line_prefix, line_suffix, level_field.
  destruct c, (String.eqb ts ""), nm as [n|]; run_monad;
    rewrite ?format_stamp, ?format_name, format_level, format_location;
    rewrite <- ?app_assoc; cbn [app];
    (eexists; split; [reflexivity | split; [repeat constructor|]]);
    cbn [written]; rewrite ?Pos.eqb_refl; norm_string; reflexivity.
Qed.

(** The guarded call of [emit_one] for a sink that may be absent. *)
Lemma emit_sink_run (out : FILEp) (c : bool) (col ts : string)
    (nm : option string) (lv : LogLevel) (f : string) (ln : Z) (fn msg : string)
    (w : World) :
  exists chunk,
    match out with
    | Some _ => emit_one out c col ts nm lv f ln fn msg
    | None => ret tt
    end w = (tt, mkWorld (errno w) (mem w) (trace w ++ chunk)%list) /\
    sink_chunk out chunk
      ((if c then col else "") ++ line_text ts nm lv f ln fn msg
                               ++ (if c then color_reset else "")).
Proof.
  destruct out as [o|]; [apply emit_one_run|].
  exists []; split; [|reflexivity].
  unfold ret; rewrite app_nil_r; now destruct w.
Qed.

(** ** An emission that passes the filter *)

(** Asking whether the stream sink is to be coloured leaves memory and trace
    alone; errno moves only when [isatty] answers no. *)
Lemma color_probe_run (E : Env) (g : Logger) (w : World) :
  exists e,
    (if colors g
     then match stream g with
          | Some _ => is_tty E (stream g)
          | None => ret false
          end
     else ret false) w = (wants_color E g, mkWorld e (mem w) (trace w)) /\
    (stream g = None -> e = errno w).
Proof.
  unfold wants_color, is_tty, LOGGER_ISATTY; destruct w as [e0 m t].
  destruct (colors g), (stream g) as [s|]; try destruct (env_isatty E s);
    unfold set_errno, bind, ret; cbn;
    eexists; (split; [reflexivity | first [reflexivity | discriminate]]).
Qed.

Lemma emission_world (E : Env) (en : entry) (l : loc) (lv : LogLevel)
    (f : string) (ln : Z) (fn : string) (w : World) :
  let g := mem w l in
  let line := line_text (stamp E g) (name g) lv f ln fn (message_text en) in
  (lv <? level g) = false ->
  exists S F e m,
    emission E en (Some l) lv f ln fn w
      = (tt, mkWorld e m (trace w ++ guarded g (EvMutexLock l) ++ S ++ F
                                  ++ guarded g (EvMutexUnlock l))%list) /\
    sink_chunk (stream g) S (if wants_color E g then colorized lv line else line) /\
    sink_chunk (file g) F line /\
    (stream g = None -> e = errno w).
Proof.
  intros g line Hpass; subst line.
  assert (Hplain : forall t : string, "" ++ t ++ "" = t)
    by (intros t; cbn; apply append_nil_r).
  unfold emission, logger_log_impl, logger_vlog_impl, logger_write,
    message_text, stamp, guarded, colorized,
    LOGGER_MUTEX_LOCK, LOGGER_MUTEX_UNLOCK, now_iso8601.
  destruct en as [fmt args | msg];
    rewrite bind_load; fold g; rewrite Hpass;
    destruct (locking g), (timestamps g); steps.
  all: match goal with
       | |- context [bind (if colors ?g0 then _ else _) _ ?w0] =>
           destruct (color_probe_run E g0 w0) as (e & Hrun & Herr);
           rewrite (bind_run _ _ _ _ _ Hrun); clear Hrun; cbn [errno mem trace] in *
       end.
  all: match goal with
       | |- context [bind (match ?out with Some _ => emit_one ?out ?c ?col ?ts ?nm ?lv' ?f' ?ln' ?fn' ?msg' | None => _ end) _ ?w0] =>
           destruct (emit_sink_run out c col ts nm lv' f' ln' fn' msg' w0) as (S & Hrun & HS);
           rewrite (bind_run _ _ _ _ _ Hrun); clear Hrun; cbn [errno mem trace]
       end.
  all: match goal with
       | |- context [bind (match ?out with Some _ => emit_one ?out ?c ?col ?ts ?nm ?lv' ?f' ?ln' ?fn' ?msg' | None => _ end) _ ?w0] =>
           destruct (emit_sink_run out c col ts nm lv' f' ln' fn' msg' w0) as (F & Hrun & HF);
           rewrite (bind_run _ _ _ _ _ Hrun); clear Hrun; cbn [errno mem trace]
       end.
  all: steps; unfold ret, emit, modify; cbn [errno mem trace];
       rewrite <- ?app_assoc; cbn [app]; rewrite ?app_nil_r;
       rewrite Hplain in HF;
       exists S, F; do 2 eexists; (split; [cbn [app]; rewrite ?app_nil_r; reflexivity|]);
       (split; [destruct (wants_color E g); [exact HS | now rewrite Hplain in HS]|]);
       (split; [exact HF | exact Herr]).
Qed.

(** ** Initialisation *)

Ltac run_init_all :=
  unfold run_init, logger_init_dual, logger_init_stream, logger_init_file,
    init_common, fopen, LOGGER_ISATTY, LOGGER_MUTEX_INIT_OK,
    LOGGER_MUTEX_DESTROY, exec, eval.

(** C6: an initialiser handed a null logger, or a null stream or path where
    it requires one, returns false with errno set to EINVAL; memory is as it
    was and no libc call was made (no file opened, no mutex initialised, no
    stream reconfigured). *)
Theorem init_null_argument (E : Env) (i : initializer) (lg : option loc)
    (lv : LogLevel) (w : World) :
  null_argument i lg = true ->
  eval (run_init E i lg lv) w = false /\
  exec (run_init E i lg lv) w = mkWorld EINVAL (mem w) (trace w).
Proof.
  destruct i as [[s|] | [p|] | [p|] [s|]], lg as [l|]; cbn [null_argument];
    intros Hnull; try discriminate Hnull; split; reflexivity.
Qed.

Lemma init_null_argument_witness :
  null_argument (InitDual (Some "app.log") None) (Some demo_lg) = true /\
  eval (run_init demo_env (InitDual (Some "app.log") None) (Some demo_lg) LOG_INFO)
       demo_world = false /\
  exec (run_init demo_env (InitDual (Some "app.log") None) (Some demo_lg) LOG_INFO)
       demo_world = mkWorld EINVAL (mem demo_world) (trace demo_world).
Proof.
  split; [reflexivity|].
  apply (init_null_argument demo_env (InitDual (Some "app.log") None)
           (Some demo_lg) LOG_INFO demo_world).
  reflexivity.
Defined.

(** What [logger_init_file] does when the mutex initialises and the open
    fails. *)
Lemma open_failure_run (E : Env) (l : loc) (p : string) (lv : LogLevel)
    (w : World) (e : Z) :
  env_mutex_init E = true -> env_fopen E p "a" = inr e ->
  let r := logger_init_file E (Some l) (Some p) lv w in
  fst r = false /\
  errno (snd r) = e /\
  mem (snd r) l = mkLogger None None lv None true true false true MtxDestroyed true /\
  (forall l', l' <> l -> mem (snd r) l' = mem w l') /\
  trace (snd r)
  = (trace w ++ [EvMutexInit l; EvOpen p "a" None; EvMutexDestroy l])%list.
Proof.
  intros Hmtx Hopen; cbv zeta; run_init_all.
  steps; rewrite Hmtx; steps; cbn [negb]; rewrite Hopen; steps.
  unfold ret; cbn [fst snd errno mem trace].
  rewrite ?fn_lookup_insert, <- ?app_assoc; cbn [app].
  do 3 (split; [reflexivity|]); split; [|reflexivity].
  intros l' Hl'; rewrite !fn_lookup_insert_ne by congruence; reflexivity.
Qed.

(** C3: when the file cannot be opened, [logger_init_file] returns false,
    errno holds the code [fopen] reported, and the mutex initialised by
    [init_common] has been destroyed again: the call made exactly the three
    libc calls init, open, destroy, so as many mutexes are live afterwards
    as before, and the logger owns no file. *)
Theorem init_file_open_failure (E : Env) (l : loc) (p : string) (lv : LogLevel)
    (w : World) (e : Z) :
  env_mutex_init E = true -> env_fopen E p "a" = inr e ->
  let w' := exec (logger_init_file E (Some l) (Some p) lv) w in
  eval (logger_init_file E (Some l) (Some p) lv) w = false /\
  errno w' = e /\
  trace w' = (trace w ++ [EvMutexInit l; EvOpen p "a" None; EvMutexDestroy l])%list /\
  mutex_balance (trace w') = mutex_balance (trace w) /\
  lock (mem w' l) = MtxDestroyed /\
  file (mem w' l) = None.
Proof.
  intros Hmtx Hopen w'.
  destruct (open_failure_run E l p lv w e Hmtx Hopen)
    as (Hret & Herr & Hmem & _ & Htr).
  unfold eval; subst w'; unfold exec.
  do 3 (split; [assumption|]).
  split; [rewrite Htr, mutex_balance_app; cbn; lia|].
  now rewrite Hmem.
Qed.

Lemma init_file_open_failure_witness :
  let p := "this/path/definitely/does/not/exist/app.log" in
  let w' := exec (logger_init_file demo_env (Some demo_lg) (Some p) LOG_INFO)
                 demo_world in
  eval (logger_init_file demo_env (Some demo_lg) (Some p) LOG_INFO) demo_world
    = false /\
  errno w' = ENOENT /\
  trace w' = (trace demo_world ++
              [EvMutexInit demo_lg; EvOpen p "a" None; EvMutexDestroy demo_lg])%list /\
  mutex_balance (trace w') = mutex_balance (trace demo_world) /\
  lock (mem w' demo_lg) = MtxDestroyed /\
  file (mem w' demo_lg) = None.
Proof.
  apply (init_file_open_failure demo_env demo_lg
           "this/path/definitely/does/not/exist/app.log" LOG_INFO demo_world ENOENT);
    reflexivity.
Defined.

(** C4, the defect: [init_common] has already set [initialized] when
    [fopen] fails, and the failure path of [logger_init_file] destroys the
    mutex without clearing the flag.  The initialiser returns false and the
    logger, blank or not before the call, reads as initialised. *)
Theorem init_file_failure_leaves_initialized (E : Env) (l : loc) (p : string)
    (lv : LogLevel) (w : World) (e : Z) :
  env_mutex_init E = true -> env_fopen E p "a" = inr e ->
  eval (logger_init_file E (Some l) (Some p) lv) w = false /\
  initialized (mem (exec (logger_init_file E (Some l) (Some p) lv) w) l) = true /\
  lock (mem (exec (logger_init_file E (Some l) (Some p) lv) w) l) = MtxDestroyed.
Proof.
  intros Hmtx Hopen.
  destruct (open_failure_run E l p lv w e Hmtx Hopen)
    as (Hret & _ & Hmem & _ & _).
  unfold eval, exec; rewrite Hmem; auto.
Qed.

Lemma init_file_failure_leaves_initialized_witness :
  let p := "this/path/definitely/does/not/exist/app.log" in
  initialized (mem demo_world demo_lg) = false /\
  eval (logger_init_file demo_env (Some demo_lg) (Some p) LOG_INFO) demo_world
    = false /\
  initialized
    (mem (exec (logger_init_file demo_env (Some demo_lg) (Some p) LOG_INFO)
               demo_world) demo_lg) = true /\
  lock
    (mem (exec (logger_init_file demo_env (Some demo_lg) (Some p) LOG_INFO)
               demo_world) demo_lg) = MtxDestroyed.
Proof.
  split; [reflexivity|].
  apply (init_file_failure_leaves_initialized demo_env demo_lg
           "this/path/definitely/does/not/exist/app.log" LOG_INFO demo_world ENOENT);
    reflexivity.
Defined.

(** The same failure reaches [logger_init_dual], which delegates. *)
Lemma init_dual_failure_leaves_initialized (E : Env) (l : loc) (p : string)
    (s : handle) (lv : LogLevel) (w : World) (e : Z) :
  env_mutex_init E = true -> env_fopen E p "a" = inr e ->
  eval (logger_init_dual E (Some l) (Some p) (Some s) lv) w = false /\
  initialized (mem (exec (logger_init_dual E (Some l) (Some p) (Some s) lv) w) l)
    = true.
Proof.
  intros Hmtx Hopen.
  destruct (open_failure_run E l p lv w e Hmtx Hopen)
    as (Hret & _ & Hmem & _ & _).
  unfold eval, exec, logger_init_dual.
  destruct (logger_init_file E (Some l) (Some p) lv w) as [ok w1] eqn:Hrun.
  cbn [fst snd] in *; subst ok.
  rewrite !(bind_run _ _ _ _ _ Hrun); unfold ret; cbn [negb fst snd].
  now rewrite Hmem.
Qed.

(** On the other failure paths the flag is not raised: a failing mutex
    initialisation leaves the zeroed flag, a null argument leaves memory
    alone altogether. *)
Lemma init_mutex_failure_not_initialized (E : Env) (i : initializer) (l : loc)
    (lv : LogLevel) (w : World) :
  null_argument i (Some l) = false -> env_mutex_init E = false ->
  eval (run_init E i (Some l) lv) w = false /\
  initialized (mem (exec (run_init E i (Some l) lv) w) l) = false.
Proof.
  intros Hnull Hmtx.
  destruct i as [[s|] | [p|] | [p|] [s|]]; try discriminate Hnull;
    run_init_all; steps; rewrite Hmtx; steps; cbn [negb]; steps;
    unfold ret; cbn [fst snd mem]; rewrite ?fn_lookup_insert; auto.
Qed.

(** Every successful initialisation raises it. *)
Lemma init_success_initialized (E : Env) (i : initializer) (l : loc)
    (lv : LogLevel) (w : World) :
  eval (run_init E i (Some l) lv) w = true ->
  initialized (mem (exec (run_init E i (Some l) lv) w) l) = true.
Proof.
  destruct i as [[s|] | [p|] | [p|] [s|]];
    run_init_all; steps; try discriminate;
    destruct (env_mutex_init E); steps; cbn [negb]; steps; try discriminate;
    try destruct (env_fopen E p "a") as [o|e]; steps; cbn [negb]; steps;
    try discriminate;
    try destruct (env_isatty E s); unfold setvbuf; steps;
    unfold ret; cbn [fst snd mem]; rewrite ?fn_lookup_insert; auto.
Qed.

(** ** Configuration setters *)

Ltac run_all :=
  unfold run_setter, logger_set_level, logger_set_name,
    logger_enable_timestamps, logger_enable_colors, logger_enable_locking,
    exec, eval, when, fputs, fputc, fprintf, fflush, fclose, setvbuf, load,
    modify, set_errno, emit, bind, ret;
  cbn [fst snd errno mem trace].

(** C7: a setter called with a null logger sets errno to EINVAL and changes
    neither memory nor any stream; called with a valid logger it stores its
    argument into the one field it is named after, leaves every other field
    of that logger and every other logger as they were, touches no stream
    and leaves errno as it found it. *)
Theorem setter_frame (s : setter) (w : World) :
  (let w' := exec (run_setter s None) w in
   errno w' = EINVAL /\ mem w' = mem w /\ trace w' = trace w) /\
  (forall l : loc,
     let w' := exec (run_setter s (Some l)) w in
     mem w' l = assigned s (mem w l) /\
     (forall l', l' <> l -> mem w' l' = mem w l') /\
     errno w' = errno w /\ trace w' = trace w).
Proof.
  split.
  - destruct s; run_all; auto.
  - intros l; destruct s; run_all;
      (split; [apply fn_lookup_insert|]);
      (split; [intros l' Hl'; apply fn_lookup_insert_ne; congruence | auto]).
Qed.

(** ** Shutdown *)

(** What one close does to a logger: sinks cleared, mutex destroyed, flag
    reset; the streams it had are flushed (and the owned file closed)
    before the mutex goes. *)
Lemma close_run (l : loc) (w : World) :
  let g := mem w l in
  let w1 := exec (logger_close (Some l)) w in
  mem w1 l = mkLogger None None (level g) (name g) (timestamps g) (colors g)
                      (owns_file g) (locking g) MtxDestroyed false /\
  (forall l', l' <> l -> mem w1 l' = mem w l') /\
  errno w1 = errno w /\
  trace w1 = (trace w ++ close_io g ++ [EvMutexDestroy l])%list.
Proof.
  cbv zeta; unfold logger_close, LOGGER_MUTEX_DESTROY, exec, close_io.
  rewrite bind_load.
  destruct (mem w l) as [[o|] [s|] lv nm ts co [|] lk mx ini] eqn:Hg;
    cbn [file stream owns_file level name timestamps colors locking];
    unfold fflush, fclose; steps; unfold modify; cbn [snd errno mem trace];
    rewrite ?fn_lookup_insert, ?Hg; rewrite <- ?app_assoc; cbn [app];
    (split; [reflexivity|]);
    (split; [intros l' Hl';
             rewrite !fn_lookup_insert_ne by congruence; reflexivity|]);
    (split; [reflexivity|]); reflexivity.
Qed.

(** What does hold of closing twice: closing a null logger changes nothing,
    errno included.  After the first close of a logger both sinks are
    absent and [initialized] is false.  The second close finds no sink to
    flush or close and leaves errno, both (absent) sinks and every logger
    as the first close left them; but it calls the mutex destructor once
    more. *)
Lemma close_idempotent (l : loc) (w : World) :
  let w1 := exec (logger_close (Some l)) w in
  let w2 := exec (logger_close (Some l)) w1 in
  exec (logger_close None) w = w /\
  (file (mem w1 l) = None /\ stream (mem w1 l) = None /\
   initialized (mem w1 l) = false) /\
  (file (mem w2 l) = None /\ stream (mem w2 l) = None /\
   initialized (mem w2 l) = false) /\
  errno w2 = errno w1 /\
  (forall l', mem w2 l' = mem w1 l') /\
  trace w2 = (trace w1 ++ [EvMutexDestroy l])%list.
Proof.
  intros w1 w2.
  destruct (close_run l w) as (Hg1 & _ & _ & _).
  destruct (close_run l w1) as (Hg2 & Hframe & Herr & Htr).
  fold w1 in Hg1; fold w2 in Hg2, Hframe, Herr, Htr.
  assert (Hsame : mem w2 l = mem w1 l) by (rewrite Hg2, Hg1; reflexivity).
  split; [reflexivity|].
  split; [now rewrite Hg1|].
  split; [now rewrite Hsame, Hg1|].
  split; [exact Herr|].
  split.
  - intros l'; destruct (decide (l' = l)) as [->|Hne]; [exact Hsame | now apply Hframe].
  - rewrite Htr; unfold close_io; fold w1; now rewrite Hg1.
Qed.

Lemma mutex_protocol_close_io (l : loc) (live : bool) (g : Logger)
    (rest : list Event) :
  mutex_protocol l live (close_io g ++ rest) = mutex_protocol l live rest.
Proof.
  unfold close_io.
  destruct (file g), (stream g), (owns_file g); reflexivity.
Qed.

(** C5, the defect: [logger_close] destroys the mutex unconditionally.  The
    first close of a logger whose mutex is initialised uses the mutex as
    its interface allows and leaves it destroyed, with both sinks absent
    and the flag cleared.  The second close on the same logger flushes and
    closes nothing, keeps the sinks absent and does not assign errno, yet
    its one libc call is the destructor again, on the mutex the first close
    destroyed: the two closes together break the mutex protocol, whatever
    state the logger started in. *)
Theorem second_close_destroys_dead_mutex (l : loc) (w : World) :
  let w1 := exec (logger_close (Some l)) w in
  let w2 := exec (logger_close (Some l)) w1 in
  lock (mem w1 l) = MtxDestroyed /\
  appended w1 w2 [EvMutexDestroy l] /\
  (exists first,
     appended w w1 first /\ appended w w2 (first ++ [EvMutexDestroy l]) /\
     mutex_protocol l true first = true /\
     forall live, mutex_protocol l live (first ++ [EvMutexDestroy l]) = false) /\
  file (mem w2 l) = None /\ stream (mem w2 l) = None /\
  initialized (mem w2 l) = false /\ errno w2 = errno w1.
Proof.
  intros w1 w2.
  destruct (close_run l w) as (Hg1 & _ & _ & Htr1).
  destruct (close_run l w1) as (Hg2 & _ & Herr & Htr2).
  fold w1 in Hg1, Htr1; fold w2 in Hg2, Herr, Htr2.
  assert (Hio : close_io (mem w1 l) = []) by (rewrite Hg1; reflexivity).
  rewrite Hio in Htr2; cbn [app] in Htr2.
  split; [now rewrite Hg1|].
  split; [exact Htr2|].
  split.
  - exists (close_io (mem w l) ++ [EvMutexDestroy l])%list.
    split; [exact Htr1|].
    split; [unfold appended; rewrite Htr2, Htr1, <- !app_assoc; reflexivity|].
    split.
    + rewrite mutex_protocol_close_io; cbn; now rewrite Pos.eqb_refl.
    + intros live; rewrite <- app_assoc, mutex_protocol_close_io; cbn.
      rewrite Pos.eqb_refl; cbn; now rewrite andb_false_r.
  - rewrite Hg2; repeat split; exact Herr.
Qed.

(** The test suite's [close_idempotent], run: one mutex initialised, two
    destroyed. *)
Example scenario_close_twice :
  let run :=
    _ <- logger_init_stream demo_env (Some demo_lg) (Some demo_tty) LOG_INFO ;;
    logger_close (Some demo_lg) ;;
    logger_close (Some demo_lg) in
  let w := exec run demo_world in
  trace w = [EvMutexInit demo_lg; EvSetvbuf demo_tty IOLBF 0; EvFlush demo_tty;
             EvMutexDestroy demo_lg; EvMutexDestroy demo_lg] /\
  mutex_protocol demo_lg false (trace w) = false /\
  mutex_balance (trace w) = -1 /\
  file (mem w demo_lg) = None /\ stream (mem w demo_lg) = None.
Proof. repeat split. Qed.


(** ** What reaches the sinks *)

Lemma sink_chunk_written (out : FILEp) (chunk : list Event) (bytes : string)
    (h : handle) :
  sink_chunk out chunk bytes ->
  written h chunk = match out with
                    | Some o => if Pos.eqb h o then bytes else ""
                    | None => ""
                    end.
Proof.
  destruct out as [o|]; cbn.
  - intros [Hall Hw]; destruct (Pos.eqb_spec h o) as [->|Hne];
      [exact Hw | now apply written_elsewhere with o].
  - now intros ->.
Qed.


Lemma written_guarded (g : Logger) (l : loc) (h : handle) :
  written h (guarded g (EvMutexLock l)) = "" /\
  written h (guarded g (EvMutexUnlock l)) = "".
Proof. unfold guarded; now destruct (locking g). Qed.

Lemma guarded_mutex_only (g : Logger) (l : loc) :
  forallb is_mutex_event (guarded g (EvMutexLock l)) = true /\
  forallb is_mutex_event (guarded g (EvMutexUnlock l)) = true.
Proof. unfold guarded; now destruct (locking g). Qed.

Lemma line_text_nonempty (ts : string) (nm : option string) (lv : LogLevel)
    (f : string) (ln : Z) (fn msg : string) :
  line_text ts nm lv f ln fn msg <> "".
Proof.
  intros H; apply (f_equal String.length) in H.
  unfold line_text, line_suffix in H.
  rewrite !length_append in H; cbn in H; lia.
Qed.

Lemma colorized_nonempty (lv : LogLevel) (text : string) : colorized lv text <> "".
Proof.
  unfold colorized, level_color.
  repeat match goal with |- context [if ?b then _ else _] => destruct b end;
    discriminate.
Qed.

Lemma append_empty (a b : string) : a ++ b = "" <-> a = "" /\ b = "".
Proof.
  destruct a; cbn; [|split; [discriminate | intros [H _]; discriminate H]].
  split; [now split | now intros [_ ->]].
Qed.

(** The bytes a chunk delivers to [h] are empty exactly when the chunk's
    sink is not [h]. *)
Lemma sink_bytes_empty (out : FILEp) (h : handle) (t : string) :
  t <> "" ->
  match out with
  | Some o => if Pos.eqb h o then t else ""
  | None => ""
  end = "" <-> out <> Some h.
Proof.
  intros Ht; destruct out as [o|]; [|split; [discriminate | reflexivity]].
  destruct (Pos.eqb_spec h o) as [->|Hne].
  - split; [contradiction | intros H; now elim H].
  - split; [intros _ H; injection H as ->; now elim Hne | reflexivity].
Qed.

Lemma emission_suppressed (E : Env) (en : entry) (l : loc) (lv : LogLevel)
    (f : string) (ln : Z) (fn : string) (w : World) :
  (lv <? level (mem w l)) = true ->
  emission E en (Some l) lv f ln fn w = (tt, w).
Proof.
  intros H; destruct en;
    unfold emission, logger_log_impl, logger_vlog_impl, logger_write;
    rewrite bind_load, H; reflexivity.
Qed.

(** C1: an emission with logger and message present writes to a stream
    exactly when its severity is at least the logger's minimum level and the
    stream is one of the logger's sinks; below the minimum level the call
    leaves the whole world, errno and every stream included, as it was. *)
Theorem emission_level_filter (E : Env) (en : entry) (l : loc) (lv : LogLevel)
    (f : string) (ln : Z) (fn : string) (w : World) :
  let g := mem w l in
  let w' := exec (emission E en (Some l) lv f ln fn) w in
  (lv < level g -> w' = w) /\
  exists delta,
    appended w w' delta /\
    forall h, written h delta <> "" <->
              level g <= lv /\ (stream g = Some h \/ file g = Some h).
Proof.
  intros g w'; subst w'; unfold exec, appended.
  destruct (lv <? level g) eqn:Hcmp.
  - apply Z.ltb_lt in Hcmp.
    rewrite emission_suppressed by (apply Z.ltb_lt; exact Hcmp); cbn [snd].
    split; [reflexivity|].
    exists []; split; [now rewrite app_nil_r|].
    intros h; cbn; split; [congruence | lia].
  - destruct (emission_world E en l lv f ln fn w Hcmp)
      as (S & F & e & m & Hrun & HS & HF & _).
    apply Z.ltb_ge in Hcmp.
    rewrite Hrun; cbn [snd trace]; fold g in HS, HF |- *.
    split; [lia|].
    eexists; split; [reflexivity|].
    intros h; rewrite !written_app.
    destruct (written_guarded g l h) as [-> ->].
    rewrite (sink_chunk_written _ _ _ h HS), (sink_chunk_written _ _ _ h HF).
    cbn [append]; rewrite append_nil_r, append_empty.
    rewrite !sink_bytes_empty;
      [| apply line_text_nonempty
       | destruct (wants_color E g);
         [apply colorized_nonempty | apply line_text_nonempty]].
    split.
    + intros Hw; split; [lia|].
      destruct (decide (stream g = Some h)) as [Hs|Hs]; [now left|].
      destruct (decide (file g = Some h)) as [Hf|Hf]; [now right|].
      elim Hw; now split.
    + intros [_ [Hs|Hf]] [Hs' Hf']; contradiction.
Qed.

Lemma emission_level_filter_witness :
  let w := world_with (dual_logger demo_tty LOG_WARNING) in
  LOG_INFO < level (mem w demo_lg) /\
  exec (emission demo_env (Preformatted "quiet") (Some demo_lg) LOG_INFO
          "main.c" 7 "main") w = w.
Proof.
  split; [reflexivity|].
  apply (emission_level_filter demo_env (Preformatted "quiet") demo_lg LOG_INFO
           "main.c" 7 "main" (world_with (dual_logger demo_tty LOG_WARNING))).
  reflexivity.
Defined.



(** ** The level field *)

Lemma level_name_cases (lv : LogLevel) :
  level_name lv = "DEBUG" \/ level_name lv = "INFO" \/ level_name lv = "WARNING" \/
  level_name lv = "ERROR" \/ level_name lv = "CRITICAL" \/ level_name lv = "LVL?".
Proof.
  unfold level_name.
  repeat match goal with |- context [if ?b then _ else _] => destruct b end; auto 10.
Qed.

Lemma length_spaces (n : nat) : String.length (spaces n) = n.
Proof. induction n; cbn; congruence. Qed.

(** C9: the five levels render as their names and any other value as the
    placeholder [LVL?]; an emission that passes the filter, whatever the
    numeric level, writes to each bound sink (and to nothing else) one line
    in which the text in front of the level is followed by the level name,
    blanks up to eight columns, one more blank, and the location and
    message. *)
Theorem level_rendering (E : Env) (en : entry) (l : loc) (lv : LogLevel)
    (f : string) (ln : Z) (fn : string) (w : World) :
  let g := mem w l in
  let w' := exec (emission E en (Some l) lv f ln fn) w in
  let field := level_name lv ++ spaces (8 - String.length (level_name lv)) in
  let line := line_prefix (stamp E g) (name g) ++ field ++ " "
              ++ line_suffix f ln fn (message_text en) in
  (level_name LOG_DEBUG = "DEBUG" /\ level_name LOG_INFO = "INFO" /\
   level_name LOG_WARNING = "WARNING" /\ level_name LOG_ERROR = "ERROR" /\
   level_name LOG_CRITICAL = "CRITICAL") /\
  (lv <> LOG_DEBUG -> lv <> LOG_INFO -> lv <> LOG_WARNING -> lv <> LOG_ERROR ->
   lv <> LOG_CRITICAL -> level_name lv = "LVL?") /\
  (8 <= String.length field)%nat /\
  (level g <= lv ->
   exists pre S F post,
     appended w w' (pre ++ S ++ F ++ post) /\
     forallb is_mutex_event pre = true /\ forallb is_mutex_event post = true /\
     sink_chunk (stream g) S (if wants_color E g then colorized lv line else line) /\
     sink_chunk (file g) F line).
Proof.
  intros g w' field line.
  split; [repeat split|].
  split.
  { intros H1 H2 H3 H4 H5; unfold level_name.
    repeat match goal with
           | |- context [?a =? ?b] => destruct (Z.eqb_spec a b); [contradiction|]
           end.
    reflexivity. }
  split.
  { subst field; rewrite length_append, length_spaces.
    generalize (String.length (level_name lv)); clear; intros n; lia. }
  intros Hpass.
  assert (Hcmp : (lv <? level g) = false) by (apply Z.ltb_ge; exact Hpass).
  destruct (emission_world E en l lv f ln fn w Hcmp)
    as (S & F & e & m & Hrun & HS & HF & _).
  destruct (guarded_mutex_only g l) as [Hpre Hpost].
  exists (guarded g (EvMutexLock l)), S, F, (guarded g (EvMutexUnlock l)).
  subst w'; unfold exec, appended; rewrite Hrun; cbn [snd trace].
  split; [reflexivity|]. split; [exact Hpre|]. split; [exact Hpost|].
  split; [exact HS | exact HF].
Qed.

Lemma level_rendering_witness :
  let w := world_with (dual_logger demo_pipe LOG_DEBUG) in
  let w' := exec (emission demo_env (Preformatted "odd") (Some demo_lg) 35
                    "main.c" 7 "main") w in
  level_name 35 = "LVL?" /\
  written demo_file (trace w')
  = "2025-09-03T21:07:15Z LVL?     main.c:7:main: odd" ++ String LF "".
Proof.
  split.
  - apply (level_rendering demo_env (Preformatted "odd") demo_lg 35
             "main.c" 7 "main" (world_with (dual_logger demo_pipe LOG_DEBUG)));
      discriminate.
  - destruct (level_rendering demo_env (Preformatted "odd") demo_lg 35
                "main.c" 7 "main" (world_with (dual_logger demo_pipe LOG_DEBUG)))
      as (_ & _ & _ & Hline).
    destruct Hline as (pre & S & F & post & Happ & _ & _ & HS & HF);
      [apply Z.leb_le; reflexivity|].
    reflexivity.
Defined.

(** ** Colour *)

Lemma esc_free_append (a b : string) :
  esc_free (a ++ b) = esc_free a && esc_free b.
Proof.
  induction a as [|c a IH]; cbn; [reflexivity|].
  now rewrite IH, andb_assoc.
Qed.

Lemma esc_free_no_csi (s : string) : esc_free s = true -> has_csi s = false.
Proof.
  induction s as [|c s IH]; cbn; [reflexivity|].
  intros H; apply andb_prop in H as [Hc Hs].
  apply negb_true_iff in Hc; rewrite Hc; cbn; auto.
Qed.

Lemma esc_free_uint (d : Decimal.uint) :
  esc_free (NilEmpty.string_of_uint d) = true.
Proof. induction d; cbn; auto. Qed.

Lemma esc_free_uint_zero (d : Decimal.uint) :
  esc_free (NilZero.string_of_uint d) = true.
Proof. destruct d; first [reflexivity | apply esc_free_uint]. Qed.

Lemma esc_free_dec (z : Z) : esc_free (dec z) = true.
Proof.
  unfold dec, NilZero.string_of_int.
  destruct (Z.to_int z) as [d|d]; [apply esc_free_uint_zero|].
  cbn [esc_free]; now rewrite esc_free_uint_zero.
Qed.

Lemma esc_free_level_field (lv : LogLevel) : esc_free (level_field lv) = true.
Proof.
  unfold level_field.
  destruct (level_name_cases lv) as [H|[H|[H|[H|[H|H]]]]]; rewrite H; reflexivity.
Qed.

Lemma esc_free_line_text (ts : string) (nm : option string) (lv : LogLevel)
    (f : string) (ln : Z) (fn msg : string) :
  esc_free ts = true -> name_esc_free nm = true -> esc_free f = true ->
  esc_free fn = true -> esc_free msg = true ->
  esc_free (line_text ts nm lv f ln fn msg) = true.
Proof.
  intros Hts Hnm Hf Hfn Hmsg.
  unfold line_text, line_prefix, line_suffix.
  rewrite !esc_free_append, esc_free_level_field, esc_free_dec, Hf, Hfn, Hmsg.
  destruct (String.eqb ts ""), nm as [n|]; cbn in *;
    rewrite ?esc_free_append, ?Hts, ?Hnm; reflexivity.
Qed.

Lemma has_csi_colorized (lv : LogLevel) (text : string) :
  has_csi (colorized lv text) = true.
Proof.
  unfold colorized, level_color.
  repeat match goal with |- context [if ?b then _ else _] => destruct b end;
    reflexivity.
Qed.

Lemma forallb_mutex_written (tr : list Event) (h : handle) :
  forallb is_mutex_event tr = true -> written h tr = "".
Proof.
  induction tr as [|e tr IH]; cbn; [reflexivity|].
  intros H; apply andb_prop in H as [He Htr].
  destruct e; try discriminate He; auto.
Qed.

(** C2: in an emission that passes the filter the stream sink is served
    first and the file sink second, with nothing but mutex calls around
    them.  The stream receives the line wrapped in the colour of the level
    and the reset sequence exactly when colours are enabled and the stream
    is a terminal; the file receives the bare line whatever the toggle says.
    The logger itself thus adds escape sequences to the stream under that
    condition only and none to the file: when the texts it is handed (time
    stamp, name, location, message) hold no escape character, the
    introducer [ESC [] occurs in the stream's bytes iff colours are enabled
    and the stream is a terminal, and never in the file's. *)
Theorem colors_only_on_terminal_stream (E : Env) (en : entry) (l : loc)
    (lv : LogLevel) (f : string) (ln : Z) (fn : string) (w : World) :
  let g := mem w l in
  let w' := exec (emission E en (Some l) lv f ln fn) w in
  let line := line_text (stamp E g) (name g) lv f ln fn (message_text en) in
  level g <= lv ->
  exists pre S F post,
    appended w w' (pre ++ S ++ F ++ post) /\
    forallb is_mutex_event pre = true /\ forallb is_mutex_event post = true /\
    sink_chunk (stream g) S (if wants_color E g then colorized lv line else line) /\
    sink_chunk (file g) F line /\
    (texts_esc_free E g f fn en = true ->
     (forall s, stream g = Some s ->
        (has_csi (written s S) = true <->
         colors g = true /\ env_isatty E s = true)) /\
     (forall o, file g = Some o -> has_csi (written o F) = false) /\
     (forall o, file g = Some o -> stream g <> Some o ->
        has_csi (written o (pre ++ S ++ F ++ post)) = false)).
Proof.
  intros g w' line Hpass.
  assert (Hcmp : (lv <? level g) = false) by (apply Z.ltb_ge; exact Hpass).
  destruct (emission_world E en l lv f ln fn w Hcmp)
    as (S & F & e & m & Hrun & HS & HF & _).
  fold g in HS, HF; fold line in HS, HF.
  destruct (guarded_mutex_only g l) as [Hpre Hpost].
  exists (guarded g (EvMutexLock l)), S, F, (guarded g (EvMutexUnlock l)).
  subst w'; unfold exec, appended; rewrite Hrun; cbn [snd trace].
  do 5 (split; [first [reflexivity | assumption]|]).
  intros Htexts; unfold texts_esc_free in Htexts.
  repeat (apply andb_prop in Htexts as [Htexts ?]).
  assert (Hline : has_csi line = false)
    by (apply esc_free_no_csi, esc_free_line_text; assumption).
  split; [|split].
  - intros s Hs.
    rewrite (sink_chunk_written _ _ _ s HS), Hs, Pos.eqb_refl.
    unfold wants_color; rewrite Hs.
    destruct (colors g), (env_isatty E s); cbn [andb];
      rewrite ?has_csi_colorized, ?Hline; intuition congruence.
  - intros o Ho.
    now rewrite (sink_chunk_written _ _ _ o HF), Ho, Pos.eqb_refl.
  - intros o Ho Hne.
    rewrite !written_app.
    rewrite (forallb_mutex_written _ o Hpre), (forallb_mutex_written _ o Hpost).
    rewrite (sink_chunk_written _ _ _ o HS), (sink_chunk_written _ _ _ o HF).
    rewrite Ho, Pos.eqb_refl, append_nil_r; cbn [append].
    destruct (stream g) as [s|]; [|exact Hline].
    destruct (Pos.eqb_spec o s) as [->|_]; [now elim Hne | exact Hline].
Qed.

Lemma colors_only_on_terminal_stream_witness :
  let w := world_with (dual_logger demo_tty LOG_INFO) in
  let w' := exec (emission demo_env (Variadic "disk %d%% full" [AInt 93])
                    (Some demo_lg) LOG_ERROR "main.c" 42 "main") w in
  has_csi (written demo_tty (trace w')) = true /\
  has_csi (written demo_file (trace w')) = false /\
  exists pre S F post,
    appended w w' (pre ++ S ++ F ++ post) /\
    forallb is_mutex_event pre = true /\ forallb is_mutex_event post = true /\
    sink_chunk (Some demo_tty) S
      (colorized LOG_ERROR
         (line_text "2025-09-03T21:07:15Z" None LOG_ERROR "main.c" 42 "main"
                    "disk 93% full")) /\
    sink_chunk (Some demo_file) F
      (line_text "2025-09-03T21:07:15Z" None LOG_ERROR "main.c" 42 "main"
                 "disk 93% full").
Proof.
  split; [reflexivity|]. split; [reflexivity|].
  destruct (colors_only_on_terminal_stream demo_env
              (Variadic "disk %d%% full" [AInt 93]) demo_lg LOG_ERROR
              "main.c" 42 "main" (world_with (dual_logger demo_tty LOG_INFO)))
    as (pre & S & F & post & Happ & Hpre & Hpost & HS & HF & _);
    [apply Z.leb_le; reflexivity|].
  exists pre, S, F, post.
  split; [exact Happ|]. split; [exact Hpre|]. split; [exact Hpost|].
  split; [exact HS | exact HF].
Defined.

(** ** The two entry points *)

(** C8, as far as it holds: on a message without conversion specifiers that
    fits the 2048-byte buffer of the variadic path (at most 2047 bytes), the
    variadic entry point (and its [va_list] form) and the pre-formatted one
    return the same world: same trace, hence the same bytes on every sink,
    same errno, same memory.
    A null logger or message is rejected alike by both. *)
Theorem variadic_matches_preformatted (E : Env) (lg : option loc)
    (lv : LogLevel) (f : string) (ln : Z) (fn : string) (m : option string)
    (args : va_list) (w : World) :
  (forall s, m = Some s -> percent_free s = true /\ (String.length s <= 2047)%nat) ->
  logger_log_impl E lg lv f ln fn m args w = logger_write E lg lv f ln fn m w /\
  logger_vlog_impl E lg lv f ln fn m args w = logger_write E lg lv f ln fn m w.
Proof.
  intros Hm.
  destruct lg as [l|], m as [s|]; try (split; reflexivity).
  destruct (Hm s eq_refl) as [Hp Hl].
  unfold logger_log_impl, logger_vlog_impl, logger_write.
  rewrite vsnprintf_verbatim by (assumption || lia).
  split; reflexivity.
Qed.

Lemma variadic_matches_preformatted_witness :
  logger_log_impl demo_env (Some demo_lg) LOG_ERROR "main.c" 42 "main"
    (Some "disk full") [] (world_with (dual_logger demo_tty LOG_INFO))
  = logger_write demo_env (Some demo_lg) LOG_ERROR "main.c" 42 "main"
    (Some "disk full") (world_with (dual_logger demo_tty LOG_INFO)).
Proof.
  refine (proj1 (variadic_matches_preformatted demo_env (Some demo_lg) LOG_ERROR
           "main.c" 42 "main" (Some "disk full") []
           (world_with (dual_logger demo_tty LOG_INFO)) _)).
  intros s Hs; injection Hs as <-; split; [reflexivity | cbn; lia].
Defined.

(** C8 as stated fails on long messages: 2048 letters hold no conversion
    specifier, yet the variadic path cuts them to 2047 bytes while the
    pre-formatted path writes all of them, so the file sink receives one
    byte less. *)
Lemma variadic_truncates_long_message :
  let m := repeat_char "a" 2048 in
  let w := world_with (dual_logger demo_tty LOG_INFO) in
  percent_free m = true /\
  written demo_file (trace (exec (logger_log_impl demo_env (Some demo_lg) LOG_ERROR
                            "main.c" 42 "main" (Some m) []) w))
  <> written demo_file (trace (exec (logger_write demo_env (Some demo_lg) LOG_ERROR
                               "main.c" 42 "main" (Some m)) w)).
Proof.
  cbv zeta; split; [vm_compute; reflexivity|].
  intros H; apply (f_equal String.length) in H.
  vm_compute in H; discriminate H.
Qed.

(** ** The test suite's scenarios, run on the embedding *)

(** [level_filter_suppresses]: a stream logger at ERROR drops INFO and DEBUG;
    the sink stays empty. *)
Example scenario_filter_suppresses :
  let run :=
    _ <- logger_init_stream demo_env (Some demo_lg) (Some demo_pipe) LOG_ERROR ;;
    logger_log_impl demo_env (Some demo_lg) LOG_INFO "test_log.c" 204 "level_filter_suppresses"
      (Some "this should NOT appear") [] ;;
    logger_log_impl demo_env (Some demo_lg) LOG_DEBUG "test_log.c" 205 "level_filter_suppresses"
      (Some "this should NOT appear either") [] in
  written demo_pipe (trace (exec run demo_world)) = "".
Proof. reflexivity. Qed.

(** [format_contains_fields]: one WARNING through ["%s"] on a stream that is
    no terminal. *)
Example scenario_format_fields :
  let run :=
    _ <- logger_init_stream demo_env (Some demo_lg) (Some demo_pipe) LOG_DEBUG ;;
    logger_log_impl demo_env (Some demo_lg) LOG_WARNING "test_log.c" 291 "format_contains_fields"
      (Some "%s") [AStr "hello-world-msg"] in
  written demo_pipe (trace (exec run demo_world))
  = "2025-09-03T21:07:15Z WARNING  test_log.c:291:format_contains_fields: hello-world-msg"
    ++ String LF "".
Proof. reflexivity. Qed.

(** A named dual logger on the terminal: colour on the stream, none in the
    file, stream first. *)
Example scenario_dual_colour :
  let run :=
    _ <- logger_init_dual demo_env (Some demo_lg) (Some "app.log") (Some demo_tty) LOG_INFO ;;
    logger_set_name (Some demo_lg) (Some "demo") ;;
    logger_write demo_env (Some demo_lg) LOG_ERROR "main.c" 12 "main" (Some "disk full") in
  let w := exec run demo_world in
  written demo_tty (trace w)
  = String ESC "[31m2025-09-03T21:07:15Z [demo] ERROR    main.c:12:main: disk full"
    ++ String LF (String ESC "[0m") /\
  written demo_file (trace w)
  = "2025-09-03T21:07:15Z [demo] ERROR    main.c:12:main: disk full" ++ String LF "" /\
  errno w = 127.
Proof. repeat split. Qed.

(** [close_null_preserves_errno] and [setters_null_lg]. *)
Example scenario_null_pointers :
  errno (exec (logger_close None) demo_world) = 127 /\
  errno (exec (logger_set_level None LOG_DEBUG) demo_world) = EINVAL /\
  errno (exec (logger_log_impl demo_env None LOG_INFO "test_log.c" 1 "f" (Some "msg") [])
              demo_world) = EINVAL.
Proof. repeat split. Qed.

(** * Further properties of the code *)

(** ** Initialisers *)

Ltac run_cbv :=
  cbv [run_init logger_init_dual logger_init_stream logger_init_file
       init_common fopen LOGGER_ISATTY LOGGER_MUTEX_INIT_OK LOGGER_MUTEX_DESTROY
       LOGGER_MUTEX_LOCK LOGGER_MUTEX_UNLOCK logger_close is_tty now_iso8601
       fputs fputc fprintf fflush fclose setvbuf
       exec eval bind ret modify emit set_errno load when negb fst snd
       errno mem trace].

(** X1: a successful initialiser leaves a logger that is initialised with a
    ready mutex, carries the caller's level and the defaults (no name, time
    stamps, colours and locking on), has at least one sink, and owns its
    file exactly when it has one; no other logger is written. *)
Theorem init_success_invariant (E : Env) (i : initializer) (l : loc)
    (lv : LogLevel) (w : World) :
  eval (run_init E i (Some l) lv) w = true ->
  let g := mem (exec (run_init E i (Some l) lv) w) l in
  initialized g = true /\ lock g = MtxReady /\ level g = lv /\ name g = None /\
  timestamps g = true /\ colors g = true /\ locking g = true /\
  (file g <> None \/ stream g <> None) /\
  (owns_file g = true <-> file g <> None) /\
  forall l', l' <> l ->
    mem (exec (run_init E i (Some l) lv) w) l' = mem w l'.
Proof.
  destruct i as [[s|] | [p|] | [p|] [s|]]; run_cbv; try discriminate;
    destruct (env_mutex_init E); run_cbv; try discriminate;
    try (destruct (env_fopen E p "a") as [o|e]; run_cbv; try discriminate);
    try (destruct (env_isatty E s); run_cbv);
    rewrite ?fn_lookup_insert;
    intros _; cbn;
    (do 7 (split; [reflexivity|]));
    (split; [first [left; discriminate | right; discriminate]|]);
    (split; [first [split; [discriminate | reflexivity]
                   |split; [discriminate | intros H; now elim H]]|]);
    intros l' Hl'; rewrite !fn_lookup_insert_ne by congruence; reflexivity.
Qed.

Lemma init_success_invariant_witness :
  let w' := exec (run_init demo_env (InitDual (Some "app.log") (Some demo_tty))
                    (Some demo_lg) LOG_INFO) demo_world in
  initialized (mem w' demo_lg) = true /\
  file (mem w' demo_lg) = Some demo_file /\
  owns_file (mem w' demo_lg) = true.
Proof.
  destruct (init_success_invariant demo_env
              (InitDual (Some "app.log") (Some demo_tty)) demo_lg LOG_INFO
              demo_world eq_refl) as (Hi & _).
  split; [exact Hi|]. split; reflexivity.
Defined.

(** X2: an initialiser overwrites: with its pointers present, the logger it
    leaves and the value it returns are the same whatever the storage (or
    any other part of the world's memory) held before, be it garbage or a
    live logger. *)
Theorem init_overwrites (E : Env) (i : initializer) (l : loc) (lv : LogLevel)
    (w1 w2 : World) :
  null_argument i (Some l) = false ->
  eval (run_init E i (Some l) lv) w1 = eval (run_init E i (Some l) lv) w2 /\
  mem (exec (run_init E i (Some l) lv) w1) l
  = mem (exec (run_init E i (Some l) lv) w2) l.
Proof.
  destruct i as [[s|] | [p|] | [p|] [s|]]; cbn [null_argument];
    intros Hnull; try discriminate Hnull; run_cbv;
    destruct (env_mutex_init E); run_cbv;
    try (destruct (env_fopen E p "a") as [o|e]; run_cbv);
    try (destruct (env_isatty E s); run_cbv);
    rewrite ?fn_lookup_insert; split; reflexivity.
Qed.

Lemma init_overwrites_witness :
  mem (exec (run_init demo_env (InitStream (Some demo_pipe)) (Some demo_lg) LOG_DEBUG)
            demo_world) demo_lg
  = mem (exec (run_init demo_env (InitStream (Some demo_pipe)) (Some demo_lg) LOG_DEBUG)
              (world_with (dual_logger demo_tty LOG_ERROR))) demo_lg.
Proof.
  apply (init_overwrites demo_env (InitStream (Some demo_pipe)) demo_lg LOG_DEBUG
           demo_world (world_with (dual_logger demo_tty LOG_ERROR))).
  reflexivity.
Defined.

Lemma init_success_run (E : Env) (i : initializer) (l : loc) (lv : LogLevel)
    (f : handle) (w : World) :
  null_argument i (Some l) = false ->
  env_mutex_init E = true -> opens_as E i f ->
  let w' := exec (run_init E i (Some l) lv) w in
  eval (run_init E i (Some l) lv) w = true /\
  trace w' = (trace w ++ EvMutexInit l :: init_io E i f)%list /\
  mem w' l = fresh_logger lv (init_file_sink i f) (init_stream_sink i)
                          (match i with InitStream _ => false | _ => true end).
Proof.
  destruct i as [[s|] | [p|] | [p|] [s|]]; cbn [null_argument opens_as];
    intros Hnull Hmtx Hopen; try discriminate Hnull; run_cbv;
    rewrite Hmtx; run_cbv; rewrite ?Hopen; run_cbv;
    unfold init_io, line_buffering;
    try (destruct (env_isatty E s); run_cbv);
    rewrite ?fn_lookup_insert, <- ?app_assoc; cbn [app];
    repeat split.
Qed.

(** X3: the libc calls of a successful initialiser are, in this order: one
    mutex initialisation; for a file, [fopen] in append mode followed by
    [setvbuf] to full buffering with 1 MiB; for a stream, [setvbuf] to line
    buffering if and only if the stream is a terminal.  The logger binds
    the opened file (owned) and the caller's stream (not owned). *)
Theorem init_success_calls (E : Env) (i : initializer) (l : loc) (lv : LogLevel)
    (f : handle) (w : World) :
  null_argument i (Some l) = false ->
  env_mutex_init E = true -> opens_as E i f ->
  let w' := exec (run_init E i (Some l) lv) w in
  eval (run_init E i (Some l) lv) w = true /\
  trace w' = (trace w ++ EvMutexInit l :: init_io E i f)%list /\
  mem w' l = fresh_logger lv (init_file_sink i f) (init_stream_sink i)
                          (match i with InitStream _ => false | _ => true end).
Proof. apply init_success_run. Qed.

Lemma init_success_calls_witness :
  let w' := exec (run_init demo_env (InitDual (Some "app.log") (Some demo_tty))
                    (Some demo_lg) LOG_INFO) demo_world in
  trace w' = [EvMutexInit demo_lg; EvOpen "app.log" "a" (Some demo_file);
              EvSetvbuf demo_file IOFBF 1048576; EvSetvbuf demo_tty IOLBF 0] /\
  mem w' demo_lg = dual_logger demo_tty LOG_INFO.
Proof.
  destruct (init_success_calls demo_env (InitDual (Some "app.log") (Some demo_tty))
              demo_lg LOG_INFO demo_file demo_world eq_refl eq_refl eq_refl)
    as (_ & Htr & Hmem).
  split; [exact Htr | exact Hmem].
Defined.

(** X4: when the mutex cannot be initialised, an initialiser with its
    pointers present returns false before it opens any file or touches the
    stream: no libc call is recorded and errno is as it was (the failure
    sets no error code); the logger is left zeroed up to level and toggles,
    with no sink. *)
Theorem init_mutex_failure (E : Env) (i : initializer) (l : loc) (lv : LogLevel)
    (w : World) :
  null_argument i (Some l) = false -> env_mutex_init E = false ->
  let w' := exec (run_init E i (Some l) lv) w in
  eval (run_init E i (Some l) lv) w = false /\
  errno w' = errno w /\ trace w' = trace w /\
  mem w' l = mkLogger None None lv None true true false true MtxRaw false.
Proof.
  destruct i as [[s|] | [p|] | [p|] [s|]]; cbn [null_argument];
    intros Hnull Hmtx; try discriminate Hnull; run_cbv;
    rewrite Hmtx; run_cbv; rewrite ?fn_lookup_insert; repeat split.
Qed.

Lemma init_mutex_failure_witness :
  let E := mkEnv (fun _ => false) (fun _ _ => inl demo_file) false "" in
  let w' := exec (run_init E (InitFile (Some "app.log")) (Some demo_lg) LOG_INFO)
                 demo_world in
  eval (run_init E (InitFile (Some "app.log")) (Some demo_lg) LOG_INFO) demo_world
    = false /\
  errno w' = 127 /\ trace w' = [] /\
  mem w' demo_lg = mkLogger None None LOG_INFO None true true false true MtxRaw false.
Proof.
  apply (init_mutex_failure (mkEnv (fun _ => false) (fun _ _ => inl demo_file) false "")
           (InitFile (Some "app.log")) demo_lg LOG_INFO demo_world);
    reflexivity.
Defined.

(** ** Emission, in full *)

Lemma emit_one_shape (o : handle) (c : bool) (col ts : string) (nm : option string)
    (lv : LogLevel) (f : string) (ln : Z) (fn msg : string) (w : World) :
  emit_one (Some o) c col ts nm lv f ln fn msg w
  = (tt, mkWorld (errno w) (mem w)
           (trace w ++ map (EvWrite o) (emit_one_texts c col ts nm lv f ln fn msg)
                    ++ [EvFlush o])%list).
Proof.
  unfold emit_one, emit_one_texts, level_field.
  destruct c, (String.eqb ts ""), nm as [n|]; run_monad;
    rewrite ?format_stamp, ?format_name, format_level, format_location;
    rewrite <- ?app_assoc; reflexivity.
Qed.

Lemma map_write_shape (o : handle) (ts : list string) :
  forallb is_write (map (EvWrite o) ts) = true /\
  Forall (fun e => event_handle e = Some o) (map (EvWrite o) ts).
Proof. induction ts as [|t ts [IH1 IH2]]; cbn; split; auto. Qed.

Lemma emit_one_texts_bytes (o : handle) (c : bool) (col ts : string)
    (nm : option string) (lv : LogLevel) (f : string) (ln : Z) (fn msg : string) :
  written o (map (EvWrite o) (emit_one_texts c col ts nm lv f ln fn msg))
  = (if c then col else "") ++ line_text ts nm lv f ln fn msg
                           ++ (if c then color_reset else "").
Proof.
  unfold emit_one_texts, line_text, line_prefix, line_suffix.
  destruct c, (String.eqb ts ""), nm as [n|]; cbn [app map written];
    rewrite ?Pos.eqb_refl; norm_string; reflexivity.
Qed.

Lemma emit_sink_shape (out : FILEp) (c : bool) (col ts : string)
    (nm : option string) (lv : LogLevel) (f : string) (ln : Z) (fn msg : string)
    (w : World) :
  exists chunk,
    match out with
    | Some _ => emit_one out c col ts nm lv f ln fn msg
    | None => ret tt
    end w = (tt, mkWorld (errno w) (mem w) (trace w ++ chunk)%list) /\
    flushed_line out chunk
      ((if c then col else "") ++ line_text ts nm lv f ln fn msg
                               ++ (if c then color_reset else "")).
Proof.
  destruct out as [o|].
  - eexists; split; [apply emit_one_shape|].
    eexists; split; [reflexivity|].
    destruct (map_write_shape o (emit_one_texts c col ts nm lv f ln fn msg)).
    repeat split; try assumption. apply emit_one_texts_bytes.
  - exists []; split; [|reflexivity].
    unfold ret; rewrite app_nil_r; now destruct w.
Qed.

Lemma color_probe_errno (E : Env) (g : Logger) (w : World) :
  (if colors g
   then match stream g with
        | Some _ => is_tty E (stream g)
        | None => ret false
        end
   else ret false) w
  = (wants_color E g, mkWorld (probe_errno E g (errno w)) (mem w) (trace w)).
Proof.
  unfold wants_color, probe_errno, is_tty, LOGGER_ISATTY; destruct w as [e0 m t].
  destruct (colors g), (stream g) as [s|]; try destruct (env_isatty E s);
    reflexivity.
Qed.

(** The whole effect of an emission that passes the filter. *)
Lemma emission_full (E : Env) (en : entry) (l : loc) (lv : LogLevel)
    (f : string) (ln : Z) (fn : string) (w : World) :
  let g := mem w l in
  let line := line_text (stamp E g) (name g) lv f ln fn (message_text en) in
  (lv <? level g) = false ->
  exists S F m,
    emission E en (Some l) lv f ln fn w
      = (tt, mkWorld (probe_errno E g (errno w)) m
               (trace w ++ guarded g (EvMutexLock l) ++ S ++ F
                        ++ guarded g (EvMutexUnlock l))%list) /\
    flushed_line (stream g) S (if wants_color E g then colorized lv line else line) /\
    flushed_line (file g) F line /\
    m l = (if locking g then relocked g else g) /\
    (forall l', l' <> l -> m l' = mem w l').
Proof.
  intros g line Hpass; subst line.
  assert (Hplain : forall t : string, "" ++ t ++ "" = t)
    by (intros t; cbn; apply append_nil_r).
  unfold emission, logger_log_impl, logger_vlog_impl, logger_write,
    message_text, stamp, guarded, colorized,
    LOGGER_MUTEX_LOCK, LOGGER_MUTEX_UNLOCK, now_iso8601.
  destruct en as [fmt args | msg];
    rewrite bind_load; fold g; rewrite Hpass;
    destruct (locking g) eqn:Hlk, (timestamps g); steps.
  all: rewrite (bind_run _ _ _ _ _ (color_probe_errno E g _)); cbn [errno mem trace].
  all: match goal with
       | |- context [bind (match ?out with Some _ => emit_one ?out ?c ?col ?ts ?nm ?lv' ?f' ?ln' ?fn' ?msg' | None => _ end) _ ?w0] =>
           destruct (emit_sink_shape out c col ts nm lv' f' ln' fn' msg' w0) as (S & Hrun & HS);
           rewrite (bind_run _ _ _ _ _ Hrun); clear Hrun; cbn [errno mem trace]
       end.
  all: match goal with
       | |- context [bind (match ?out with Some _ => emit_one ?out ?c ?col ?ts ?nm ?lv' ?f' ?ln' ?fn' ?msg' | None => _ end) _ ?w0] =>
           destruct (emit_sink_shape out c col ts nm lv' f' ln' fn' msg' w0) as (F & Hrun & HF);
           rewrite (bind_run _ _ _ _ _ Hrun); clear Hrun; cbn [errno mem trace]
       end.
  all: steps; unfold ret, emit, modify; cbn [errno mem trace];
       rewrite <- ?app_assoc; cbn [app];
       rewrite Hplain in HF;
       exists S, F; eexists; (split; [cbn [app]; rewrite ?app_nil_r; reflexivity|]);
       (split; [destruct (wants_color E g); [exact HS | now rewrite Hplain in HS]|]);
       (split; [exact HF|]).
  all: try (split; [reflexivity | reflexivity]).
  all: split;
       [rewrite !fn_lookup_insert; unfold relocked; clear; subst g;
        destruct (mem w l) as [? ? ? ? ? ? ? ? [] ?]; reflexivity
       |intros l' Hl'; rewrite !fn_lookup_insert_ne by congruence; reflexivity].
Qed.

Lemma flushed_line_chunk (out : FILEp) (chunk : list Event) (bytes : string) :
  flushed_line out chunk bytes -> sink_chunk out chunk bytes.
Proof.
  destruct out as [o|]; cbn; [|auto].
  intros (ws & -> & _ & Hall & Hw); split.
  - apply Forall_app; split; [exact Hall | repeat constructor].
  - rewrite written_app, Hw; cbn; apply append_nil_r.
Qed.

Lemma flushed_line_no_mutex (out : FILEp) (chunk : list Event) (bytes : string) :
  flushed_line out chunk bytes ->
  forallb (fun e => negb (is_mutex_event e)) chunk = true.
Proof.
  destruct out as [o|]; cbn; [|now intros ->].
  intros (ws & -> & Hw & _ & _).
  rewrite forallb_app; cbn; rewrite andb_true_r.
  induction ws as [|e ws IH]; cbn in *; [reflexivity|].
  apply andb_prop in Hw as [He Hws]; destruct e; try discriminate He; auto.
Qed.

(** X5: an emission never changes the configuration of a logger.  The
    logger it is called on comes back as it was up to the state of its
    mutex, and exactly as it was when the mutex was ready or locking is
    disabled; every other logger is untouched.  This holds whether the
    message is filtered out or written. *)
Theorem emission_frame (E : Env) (en : entry) (l : loc) (lv : LogLevel)
    (f : string) (ln : Z) (fn : string) (w : World) :
  let g := mem w l in
  let w' := exec (emission E en (Some l) lv f ln fn) w in
  same_but_lock g (mem w' l) /\
  (lock g = MtxReady \/ locking g = false -> mem w' l = g) /\
  (forall l', l' <> l -> mem w' l' = mem w l').
Proof.
  intros g w'; subst w'; unfold exec, same_but_lock.
  destruct (lv <? level g) eqn:Hcmp.
  - rewrite emission_suppressed by exact Hcmp; cbn [snd]; fold g.
    split; [now destruct g|]. split; [reflexivity | reflexivity].
  - destruct (emission_full E en l lv f ln fn w Hcmp)
      as (S & F & m & Hrun & _ & _ & Hl & Hframe).
    rewrite Hrun; cbn [snd mem]; rewrite Hl; fold g; unfold relocked.
    split; [|split; [|exact Hframe]].
    + destruct (locking g); destruct g as [? ? ? ? ? ? ? ? [] ?]; reflexivity.
    + intros [Hready | Hoff]; [|now rewrite Hoff].
      destruct (locking g); [|reflexivity].
      rewrite Hready; destruct g as [? ? ? ? ? ? ? ? lk ?]; cbn in *; now subst lk.
Qed.

(** X6: the mutex brackets the output.  An emission that passes the filter
    with locking enabled starts with one lock of the logger's mutex and
    ends with one unlock, and all stream calls lie between the two; with
    locking disabled it makes no mutex call at all. *)
Theorem emission_lock_discipline (E : Env) (en : entry) (l : loc) (lv : LogLevel)
    (f : string) (ln : Z) (fn : string) (w : World) :
  let g := mem w l in
  let w' := exec (emission E en (Some l) lv f ln fn) w in
  level g <= lv ->
  exists mid,
    forallb (fun e => negb (is_mutex_event e)) mid = true /\
    appended w w' (if locking g
                   then EvMutexLock l :: mid ++ [EvMutexUnlock l]
                   else mid).
Proof.
  intros g w' Hpass; subst w'; unfold exec, appended.
  assert (Hcmp : (lv <? level g) = false) by (apply Z.ltb_ge; exact Hpass).
  destruct (emission_full E en l lv f ln fn w Hcmp)
    as (S & F & m & Hrun & HS & HF & _).
  fold g in HS, HF.
  exists (S ++ F)%list; split.
  - rewrite forallb_app, (flushed_line_no_mutex _ _ _ HS),
      (flushed_line_no_mutex _ _ _ HF); reflexivity.
  - rewrite Hrun; cbn [snd trace]; fold g; unfold guarded.
    destruct (locking g); cbn [app]; rewrite <- ?app_assoc, ?app_nil_r; reflexivity.
Qed.

Lemma emission_lock_discipline_witness :
  let w := world_with (dual_logger demo_pipe LOG_INFO) in
  let w' := exec (emission demo_env (Preformatted "up") (Some demo_lg) LOG_INFO
                    "main.c" 3 "main") w in
  exists mid,
    forallb (fun e => negb (is_mutex_event e)) mid = true /\
    trace w' = (EvMutexLock demo_lg :: mid ++ [EvMutexUnlock demo_lg])%list.
Proof.
  apply (emission_lock_discipline demo_env (Preformatted "up") demo_lg LOG_INFO
           "main.c" 3 "main" (world_with (dual_logger demo_pipe LOG_INFO))).
  apply Z.leb_le; reflexivity.
Defined.

(** X7: every line is flushed at once.  In an emission that passes the
    filter, the calls on each bound sink are a run of writes closed by one
    [fflush] of that sink; the stream's flush comes before the first write
    to the file, and the file's flush before the mutex is released. *)
Theorem emission_flushes_each_sink (E : Env) (en : entry) (l : loc)
    (lv : LogLevel) (f : string) (ln : Z) (fn : string) (w : World) :
  let g := mem w l in
  let w' := exec (emission E en (Some l) lv f ln fn) w in
  let line := line_text (stamp E g) (name g) lv f ln fn (message_text en) in
  level g <= lv ->
  exists pre S F post,
    appended w w' (pre ++ S ++ F ++ post) /\
    forallb is_mutex_event pre = true /\ forallb is_mutex_event post = true /\
    flushed_line (stream g) S (if wants_color E g then colorized lv line else line) /\
    flushed_line (file g) F line.
Proof.
  intros g w' line Hpass; subst w'; unfold exec, appended.
  assert (Hcmp : (lv <? level g) = false) by (apply Z.ltb_ge; exact Hpass).
  destruct (emission_full E en l lv f ln fn w Hcmp)
    as (S & F & m & Hrun & HS & HF & _).
  destruct (guarded_mutex_only g l) as [Hpre Hpost].
  exists (guarded g (EvMutexLock l)), S, F, (guarded g (EvMutexUnlock l)).
  rewrite Hrun; cbn [snd trace].
  split; [reflexivity|]. split; [exact Hpre|]. split; [exact Hpost|].
  split; [exact HS | exact HF].
Qed.

Lemma emission_flushes_each_sink_witness :
  let w := world_with (dual_logger demo_pipe LOG_INFO) in
  let w' := exec (emission demo_env (Preformatted "up") (Some demo_lg) LOG_INFO
                    "main.c" 3 "main") w in
  exists pre S F post,
    appended w w' (pre ++ S ++ F ++ post) /\
    flushed_line (Some demo_pipe) S
      (line_text "2025-09-03T21:07:15Z" None LOG_INFO "main.c" 3 "main" "up") /\
    flushed_line (Some demo_file) F
      (line_text "2025-09-03T21:07:15Z" None LOG_INFO "main.c" 3 "main" "up").
Proof.
  destruct (emission_flushes_each_sink demo_env (Preformatted "up") demo_lg LOG_INFO
              "main.c" 3 "main" (world_with (dual_logger demo_pipe LOG_INFO)))
    as (pre & S & F & post & Happ & _ & _ & HS & HF);
    [apply Z.leb_le; reflexivity|].
  exists pre, S, F, post. split; [exact Happ|]. split; [exact HS | exact HF].
Defined.

(** X9: a null logger or a null format or message makes each of the three
    emission functions set errno to EINVAL and return: nothing is written,
    no mutex is touched, no logger changes. *)
Theorem emission_null_arguments (E : Env) (lg : option loc) (lv : LogLevel)
    (f : string) (ln : Z) (fn : string) (m : option string) (args : va_list)
    (w : World) :
  lg = None \/ m = None ->
  logger_log_impl E lg lv f ln fn m args w = (tt, mkWorld EINVAL (mem w) (trace w)) /\
  logger_vlog_impl E lg lv f ln fn m args w = (tt, mkWorld EINVAL (mem w) (trace w)) /\
  logger_write E lg lv f ln fn m w = (tt, mkWorld EINVAL (mem w) (trace w)).
Proof.
  intros [-> | ->]; [|destruct lg]; repeat split.
Qed.

Lemma emission_null_arguments_witness :
  logger_write demo_env (Some demo_lg) LOG_ERROR "main.c" 3 "main" None
    (world_with (dual_logger demo_tty LOG_INFO))
  = (tt, mkWorld EINVAL (fun _ => dual_logger demo_tty LOG_INFO) []).
Proof.
  refine (proj2 (proj2 (emission_null_arguments demo_env (Some demo_lg) LOG_ERROR
            "main.c" 3 "main" None [] (world_with (dual_logger demo_tty LOG_INFO)) _))).
  now right.
Defined.

(** X10: the variadic wrapper adds nothing to its [va_list] form: on every
    input, null pointers included, [logger_log_impl] and [logger_vlog_impl]
    return the same world. *)
Theorem log_impl_is_vlog_impl (E : Env) (lg : option loc) (lv : LogLevel)
    (f : string) (ln : Z) (fn : string) (m : option string) (args : va_list)
    (w : World) :
  logger_log_impl E lg lv f ln fn m args w = logger_vlog_impl E lg lv f ln fn m args w.
Proof. destruct lg, m; reflexivity. Qed.

(** ** Lines *)

Lemma count_newlines_append (a b : string) :
  count_newlines (a ++ b) = (count_newlines a + count_newlines b)%nat.
Proof. induction a as [|c a IH]; cbn; [reflexivity | rewrite IH; lia]. Qed.

Lemma count_newlines_uint (d : Decimal.uint) :
  count_newlines (NilEmpty.string_of_uint d) = O.
Proof. induction d; cbn; auto. Qed.

Lemma count_newlines_dec (z : Z) : count_newlines (dec z) = O.
Proof.
  unfold dec, NilZero.string_of_int, NilZero.string_of_uint.
  destruct (Z.to_int z) as [d|d]; destruct d;
    first [reflexivity | apply count_newlines_uint
          | cbn [count_newlines]; now rewrite count_newlines_uint].
Qed.

Lemma count_newlines_level_field (lv : LogLevel) :
  count_newlines (level_field lv) = O.
Proof.
  unfold level_field.
  destruct (level_name_cases lv) as [H|[H|[H|[H|[H|H]]]]]; rewrite H; reflexivity.
Qed.

Lemma count_newlines_level_color (lv : LogLevel) :
  count_newlines (level_color lv) = O.
Proof.
  unfold level_color.
  repeat match goal with |- context [if ?b then _ else _] => destruct b end;
    reflexivity.
Qed.

Lemma count_newlines_line (ts : string) (nm : option string) (lv : LogLevel)
    (f : string) (ln : Z) (fn msg : string) :
  count_newlines ts = O -> (forall n, nm = Some n -> count_newlines n = O) ->
  count_newlines f = O -> count_newlines fn = O -> count_newlines msg = O ->
  count_newlines (line_text ts nm lv f ln fn msg) = 1%nat.
Proof.
  intros Hts Hnm Hf Hfn Hmsg.
  unfold line_text, line_prefix, line_suffix.
  rewrite !count_newlines_append, count_newlines_level_field, count_newlines_dec,
    Hf, Hfn, Hmsg.
  destruct (String.eqb ts ""), nm as [n|]; cbn;
    rewrite ?count_newlines_append, ?Hts, ?(Hnm n eq_refl); reflexivity.
Qed.

(** X11: one line per message per sink.  When the texts handed to an
    emission hold no line feed, the bytes a stream receives from it hold as
    many line feeds as the logger has sinks bound to that stream if the
    message passes the filter (one for a sink, none for a stranger), and
    none if it is filtered out; colour sequences add no line feed. *)
Theorem one_line_per_sink (E : Env) (en : entry) (l : loc) (lv : LogLevel)
    (f : string) (ln : Z) (fn : string) (w : World) :
  let g := mem w l in
  let w' := exec (emission E en (Some l) lv f ln fn) w in
  texts_lf_free E g f fn en ->
  exists delta,
    appended w w' delta /\
    forall h, count_newlines (written h delta)
              = if lv <? level g then O else bound_count g h.
Proof.
  intros g w' (Hts & Hnm & Hf & Hfn & Hmsg); subst w'; unfold exec, appended.
  destruct (lv <? level g) eqn:Hcmp.
  - rewrite emission_suppressed by exact Hcmp; cbn [snd].
    exists []; split; [now rewrite app_nil_r | reflexivity].
  - destruct (emission_full E en l lv f ln fn w Hcmp)
      as (S & F & m & Hrun & HS & HF & _).
    apply flushed_line_chunk in HS, HF; fold g in HS, HF.
    rewrite Hrun; cbn [snd trace]; fold g.
    eexists; split; [reflexivity|].
    intros h; rewrite !written_app.
    destruct (written_guarded g l h) as [-> ->].
    rewrite (sink_chunk_written _ _ _ h HS), (sink_chunk_written _ _ _ h HF).
    cbn [append]; rewrite append_nil_r, count_newlines_append.
    assert (Hline : count_newlines
              (line_text (stamp E g) (name g) lv f ln fn (message_text en)) = 1%nat)
      by (apply count_newlines_line; assumption).
    assert (Hcol : count_newlines
              (if wants_color E g
               then colorized lv (line_text (stamp E g) (name g) lv f ln fn
                                            (message_text en))
               else line_text (stamp E g) (name g) lv f ln fn (message_text en))
              = 1%nat).
    { destruct (wants_color E g); [|exact Hline].
      unfold colorized; rewrite !count_newlines_append, count_newlines_level_color,
        Hline; reflexivity. }
    unfold bound_count.
    destruct (stream g) as [s|], (file g) as [o|];
      repeat match goal with
             | |- context [Pos.eqb ?a ?x] => destruct (Pos.eqb_spec a x); subst
             end;
      repeat match goal with
             | |- context [decide ?P] => destruct (decide P); try congruence
             end;
      rewrite ?Hline, ?Hcol; reflexivity.
Qed.

Lemma one_line_per_sink_witness :
  let w := world_with (dual_logger demo_tty LOG_INFO) in
  let w' := exec (emission demo_env (Variadic "%s line" [AStr "crit"]) (Some demo_lg)
                    LOG_CRITICAL "test_log.c" 247 "level_filter_emits") w in
  exists delta,
    appended w w' delta /\
    forall h, count_newlines (written h delta)
              = bound_count (dual_logger demo_tty LOG_INFO) h.
Proof.
  apply (one_line_per_sink demo_env (Variadic "%s line" [AStr "crit"]) demo_lg
           LOG_CRITICAL "test_log.c" 247 "level_filter_emits"
           (world_with (dual_logger demo_tty LOG_INFO))).
  repeat split; try reflexivity. discriminate.
Defined.

(** X12: the level column has a fixed width.  For every level value, one of
    the five or not, the level field is exactly eight characters wide,
    because no level name is longer than eight; so what follows the level
    starts nine characters after it. *)
Theorem level_field_width (lv : LogLevel) :
  String.length (level_field lv) = 8%nat /\
  (String.length (level_name lv) <= 8)%nat /\
  format "%-8s " [AStr (level_name lv)] = level_field lv ++ " ".
Proof.
  unfold level_field.
  destruct (level_name_cases lv) as [H|[H|[H|[H|[H|H]]]]]; rewrite H;
    repeat split; cbn; lia.
Qed.

(** X13: the variadic path bounds the message.  In an emission through
    the variadic entry point that passes the filter, each bound sink
    receives at most 2047 bytes more than the line with an empty message
    has (colour sequences included on the stream), whatever the format and
    its arguments are: the 2048-byte buffer of [logger_vlog_impl] cuts the
    rest. *)
Theorem variadic_message_bounded (E : Env) (fmt : string) (args : va_list)
    (l : loc) (lv : LogLevel) (f : string) (ln : Z) (fn : string) (w : World) :
  let g := mem w l in
  let w' := exec (logger_log_impl E (Some l) lv f ln fn (Some fmt) args) w in
  let frame := line_text (stamp E g) (name g) lv f ln fn "" in
  level g <= lv ->
  exists pre S F post,
    appended w w' (pre ++ S ++ F ++ post) /\
    forallb is_mutex_event pre = true /\ forallb is_mutex_event post = true /\
    (forall s, stream g = Some s ->
       (String.length (written s S)
        <= String.length (if wants_color E g then colorized lv frame else frame)
           + 2047)%nat) /\
    (forall o, file g = Some o ->
       (String.length (written o F) <= String.length frame + 2047)%nat).
Proof.
  intros g w' frame Hpass; subst w'; unfold exec, appended.
  assert (Hcmp : (lv <? level g) = false) by (apply Z.ltb_ge; exact Hpass).
  destruct (emission_full E (Variadic fmt args) l lv f ln fn w Hcmp)
    as (S & F & m & Hrun & HS & HF & _).
  apply flushed_line_chunk in HS, HF; fold g in HS, HF.
  destruct (guarded_mutex_only g l) as [Hpre Hpost].
  exists (guarded g (EvMutexLock l)), S, F, (guarded g (EvMutexUnlock l)).
  unfold emission in Hrun; rewrite Hrun; cbn [snd trace].
  split; [reflexivity|]. split; [exact Hpre|]. split; [exact Hpost|].
  assert (Hcut : (String.length (message_text (Variadic fmt args)) <= 2047)%nat).
  { unfold message_text, vsnprintf; change (2048 - 1)%nat with 2047%nat.
    generalize (format fmt args) as s; generalize 2047%nat as n; clear.
    intros n s; revert n; induction s as [|c s IH]; intros [|n]; cbn; try lia.
    specialize (IH n); lia. }
  assert (Hline : (String.length
                     (line_text (stamp E g) (name g) lv f ln fn
                                (message_text (Variadic fmt args)))
                   <= String.length frame + 2047)%nat).
  { subst frame; unfold line_text, line_suffix.
    rewrite !length_append; cbn [String.length]; lia. }
  split.
  - intros s Hs; rewrite (sink_chunk_written _ _ _ s HS), Hs, Pos.eqb_refl.
    destruct (wants_color E g); [|exact Hline].
    unfold colorized; rewrite !length_append in *; lia.
  - intros o Ho; rewrite (sink_chunk_written _ _ _ o HF), Ho, Pos.eqb_refl.
    exact Hline.
Qed.

Lemma variadic_message_bounded_witness :
  let w := world_with (dual_logger demo_tty LOG_INFO) in
  let w' := exec (logger_log_impl demo_env (Some demo_lg) LOG_ERROR "main.c" 42 "main"
                    (Some (repeat_char "a" 3000)) []) w in
  String.length (written demo_file (trace w'))
  = (String.length (line_text "2025-09-03T21:07:15Z" None LOG_ERROR "main.c" 42
                              "main" "") + 2047)%nat /\
  exists pre S F post,
    appended w w' (pre ++ S ++ F ++ post) /\
    (String.length (written demo_file F)
     <= String.length (line_text "2025-09-03T21:07:15Z" None LOG_ERROR "main.c" 42
                                 "main" "") + 2047)%nat.
Proof.
  split; [vm_compute; reflexivity|].
  destruct (variadic_message_bounded demo_env (repeat_char "a" 3000) [] demo_lg
              LOG_ERROR "main.c" 42 "main" (world_with (dual_logger demo_tty LOG_INFO)))
    as (pre & S & F & post & Happ & _ & _ & _ & HF);
    [apply Z.leb_le; reflexivity|].
  exists pre, S, F, post; split; [exact Happ|].
  apply (HF demo_file eq_refl).
Defined.

(** ** Time stamps *)

Lemma no_prefix_on_non_digit (c : ascii) (r : string) :
  isdigit c = false -> has_iso8601_prefix (Some (String c r)) = false.
Proof. intros H; cbn; unfold char_at; cbn; now rewrite H. Qed.

Lemma level_field_starts_with_letter (lv : LogLevel) :
  exists c r, level_field lv = String c r /\ isdigit c = false.
Proof.
  unfold level_field.
  destruct (level_name_cases lv) as [H|[H|[H|[H|[H|H]]]]]; rewrite H;
    eexists; eexists; split; reflexivity.
Qed.

(** X14: with time stamps disabled nothing an emission writes starts like a
    time stamp: the bytes each bound sink receives begin with the colour
    sequence, the name tag or the level name, so the test suite's
    [has_iso8601_prefix] answers false on them, whatever name, level or
    message is used. *)
Theorem no_stamp_when_disabled (E : Env) (en : entry) (l : loc) (lv : LogLevel)
    (f : string) (ln : Z) (fn : string) (w : World) :
  let g := mem w l in
  let w' := exec (emission E en (Some l) lv f ln fn) w in
  timestamps g = false -> level g <= lv ->
  exists pre S F post,
    appended w w' (pre ++ S ++ F ++ post) /\
    forallb is_mutex_event pre = true /\ forallb is_mutex_event post = true /\
    (forall s, stream g = Some s ->
       written s S <> "" /\ has_iso8601_prefix (Some (written s S)) = false) /\
    (forall o, file g = Some o ->
       written o F <> "" /\ has_iso8601_prefix (Some (written o F)) = false).
Proof.
  intros g w' Hoff Hpass; subst w'; unfold exec, appended.
  assert (Hcmp : (lv <? level g) = false) by (apply Z.ltb_ge; exact Hpass).
  destruct (emission_full E en l lv f ln fn w Hcmp)
    as (S & F & m & Hrun & HS & HF & _).
  apply flushed_line_chunk in HS, HF; fold g in HS, HF.
  destruct (guarded_mutex_only g l) as [Hpre Hpost].
  exists (guarded g (EvMutexLock l)), S, F, (guarded g (EvMutexUnlock l)).
  rewrite Hrun; cbn [snd trace].
  split; [reflexivity|]. split; [exact Hpre|]. split; [exact Hpost|].
  assert (Hline : forall msg,
            line_text (stamp E g) (name g) lv f ln fn msg <> "" /\
            has_iso8601_prefix
              (Some (line_text (stamp E g) (name g) lv f ln fn msg)) = false).
  { intros msg; split; [apply line_text_nonempty|].
    unfold stamp; rewrite Hoff; unfold line_text, line_prefix.
    cbn [String.eqb append].
    destruct (name g) as [n|]; [reflexivity|].
    destruct (level_field_starts_with_letter lv) as (c & r & -> & Hc).
    cbn [append]; now apply no_prefix_on_non_digit. }
  split.
  - intros s Hs; rewrite (sink_chunk_written _ _ _ s HS), Hs, Pos.eqb_refl.
    destruct (wants_color E g); [|apply Hline].
    split; [apply colorized_nonempty|].
    unfold colorized, level_color.
    repeat match goal with |- context [if ?b then _ else _] => destruct b end;
      reflexivity.
  - intros o Ho; rewrite (sink_chunk_written _ _ _ o HF), Ho, Pos.eqb_refl.
    apply Hline.
Qed.

Lemma no_stamp_when_disabled_witness :
  let g := with_timestamps false (dual_logger demo_pipe LOG_DEBUG) in
  let w' := exec (emission demo_env (Variadic "ts-off" []) (Some demo_lg) LOG_INFO
                    "test_log.c" 347 "timestamp_toggle") (world_with g) in
  has_iso8601_prefix (Some (written demo_pipe (trace w'))) = false /\
  exists pre S F post,
    appended (world_with g) w' (pre ++ S ++ F ++ post) /\
    has_iso8601_prefix (Some (written demo_file F)) = false.
Proof.
  split; [reflexivity|].
  destruct (no_stamp_when_disabled demo_env (Variadic "ts-off" []) demo_lg LOG_INFO
              "test_log.c" 347 "timestamp_toggle"
              (world_with (with_timestamps false (dual_logger demo_pipe LOG_DEBUG))))
    as (pre & S & F & post & Happ & _ & _ & _ & HF);
    [reflexivity | apply Z.leb_le; reflexivity |].
  exists pre, S, F, post; split; [exact Happ|].
  apply (HF demo_file eq_refl).
Defined.

(** Checking a property of all integers of a range by running it. *)
Lemma range_check (P : Z -> bool) (lo : Z) (n : nat) :
  forallb (fun k => P (lo + Z.of_nat k)) (seq 0 n) = true ->
  forall z, lo <= z < lo + Z.of_nat n -> P z = true.
Proof.
  intros Hall z Hz.
  rewrite forallb_forall in Hall.
  replace z with (lo + Z.of_nat (Z.to_nat (z - lo))) by lia.
  apply Hall, in_seq; lia.
Qed.

Lemma two_digits_shape (z : Z) :
  0 <= z <= 99 -> two_digit_text (two_digits z) = true.
Proof.
  intros Hz.
  apply (range_check (fun z => two_digit_text (two_digits z)) 0 100);
    [vm_compute; reflexivity | lia].
Qed.

Lemma year_shape (z : Z) :
  1000 <= z <= 9999 -> four_digit_text (dec z) = true.
Proof.
  intros Hz.
  apply (range_check (fun z => four_digit_text (dec z)) 1000 (Z.to_nat 9000));
    [vm_compute; reflexivity | rewrite Z2Nat.id; lia].
Qed.

Lemma iso_stamp_shape (t : tm) (rest : string) :
  calendar_time t ->
  exists s,
    now_iso8601_of t 32 = Some s /\ String.length s = 20%nat /\
    has_iso8601_prefix (Some (s ++ rest)) = true.
Proof.
  intros (Hy & Hmo & Hd & Hh & Hmi & Hs).
  unfold now_iso8601_of, strftime.
  cbn [strftime_from Ascii.eqb Bool.eqb append].
  pose proof (year_shape (tm_year t + 1900) ltac:(lia)) as HY.
  pose proof (two_digits_shape (tm_mon t + 1) ltac:(lia)) as HMo.
  pose proof (two_digits_shape (tm_mday t) ltac:(lia)) as HD.
  pose proof (two_digits_shape (tm_hour t) ltac:(lia)) as HH.
  pose proof (two_digits_shape (tm_min t) ltac:(lia)) as HMi.
  pose proof (two_digits_shape (tm_sec t) ltac:(lia)) as HS.
  unfold four_digit_text in HY; unfold two_digit_text in *.
  destruct (dec (tm_year t + 1900)) as [|y1 [|y2 [|y3 [|y4 [|? ?]]]]];
    try discriminate HY.
  destruct (two_digits (tm_mon t + 1)) as [|a1 [|a2 [|? ?]]]; try discriminate HMo.
  destruct (two_digits (tm_mday t)) as [|b1 [|b2 [|? ?]]]; try discriminate HD.
  destruct (two_digits (tm_hour t)) as [|c1 [|c2 [|? ?]]]; try discriminate HH.
  destruct (two_digits (tm_min t)) as [|d1 [|d2 [|? ?]]]; try discriminate HMi.
  destruct (two_digits (tm_sec t)) as [|e1 [|e2 [|? ?]]]; try discriminate HS.
  repeat match goal with
         | H : _ && _ = true |- _ => apply andb_prop in H as [? ?]
         end.
  eexists; split; [reflexivity|]. split; [reflexivity|].
  cbn [append has_iso8601_prefix forallb seq char_at String.get].
  repeat match goal with H : isdigit _ = true |- _ => rewrite H; clear H end.
  reflexivity.
Qed.

(** X15: for a broken-down time of the years 1000 to 9999 the logger's
    format renders exactly twenty characters, which fit the 32-byte buffer
    of the emission, and the result, whatever follows it on the line, is
    what the test suite's [has_iso8601_prefix] accepts. *)
Theorem stamp_rendering (t : tm) (rest : string) :
  calendar_time t ->
  exists s,
    now_iso8601_of t 32 = Some s /\ String.length s = 20%nat /\
    has_iso8601_prefix (Some (s ++ rest)) = true.
Proof. apply iso_stamp_shape. Qed.

Lemma stamp_rendering_witness :
  exists s,
    now_iso8601_of (mkTm 15 7 21 3 8 125) 32 = Some s /\ String.length s = 20%nat /\
    has_iso8601_prefix (Some (s ++ " INFO     test_log.c:330:timestamp_toggle: ts-on"))
    = true.
Proof.
  apply (stamp_rendering (mkTm 15 7 21 3 8 125)
           " INFO     test_log.c:330:timestamp_toggle: ts-on").
  unfold calendar_time; cbn; lia.
Defined.

Example demo_clock_rendering :
  now_iso8601_of (mkTm 15 7 21 3 8 125) 32 = Some (env_now demo_env).
Proof. reflexivity. Qed.

(** X16: with time stamps enabled and the clock rendered as above, the line
    the file sink receives starts with the time stamp; so does the line of
    the stream sink unless it is coloured, in which case the colour
    sequence comes first and the stamp check fails on it. *)
Theorem stamped_line (E : Env) (en : entry) (l : loc) (lv : LogLevel)
    (f : string) (ln : Z) (fn : string) (w : World) (t : tm) :
  let g := mem w l in
  let w' := exec (emission E en (Some l) lv f ln fn) w in
  timestamps g = true -> level g <= lv ->
  calendar_time t -> now_iso8601_of t 32 = Some (env_now E) ->
  exists pre S F post,
    appended w w' (pre ++ S ++ F ++ post) /\
    forallb is_mutex_event pre = true /\ forallb is_mutex_event post = true /\
    (forall s, stream g = Some s ->
       has_iso8601_prefix (Some (written s S)) = negb (wants_color E g)) /\
    (forall o, file g = Some o ->
       has_iso8601_prefix (Some (written o F)) = true).
Proof.
  intros g w' Hon Hpass Ht Hnow; subst w'; unfold exec, appended.
  assert (Hcmp : (lv <? level g) = false) by (apply Z.ltb_ge; exact Hpass).
  destruct (emission_full E en l lv f ln fn w Hcmp)
    as (S & F & m & Hrun & HS & HF & _).
  apply flushed_line_chunk in HS, HF; fold g in HS, HF.
  destruct (guarded_mutex_only g l) as [Hpre Hpost].
  exists (guarded g (EvMutexLock l)), S, F, (guarded g (EvMutexUnlock l)).
  rewrite Hrun; cbn [snd trace].
  split; [reflexivity|]. split; [exact Hpre|]. split; [exact Hpost|].
  assert (Hline : forall msg,
            has_iso8601_prefix
              (Some (line_text (stamp E g) (name g) lv f ln fn msg)) = true).
  { intros msg.
    unfold stamp; rewrite Hon; unfold line_text, line_prefix.
    destruct (iso_stamp_shape t "" Ht) as (s0 & Hs0 & Hlen & _).
    rewrite Hnow in Hs0; injection Hs0 as <-.
    destruct (String.eqb_spec (env_now E) "") as [He|_];
      [rewrite He in Hlen; discriminate Hlen|].
    rewrite !append_assoc.
    destruct (iso_stamp_shape t
                (" " ++ match name g with
                        | Some n => "[" ++ n ++ "] "
                        | None => ""
                        end ++ level_field lv ++ " " ++ line_suffix f ln fn msg) Ht)
      as (s1 & Hs1 & _ & Hok).
    rewrite Hnow in Hs1; injection Hs1 as <-. exact Hok. }
  split.
  - intros s Hs; rewrite (sink_chunk_written _ _ _ s HS), Hs, Pos.eqb_refl.
    destruct (wants_color E g); [|apply Hline].
    unfold colorized, level_color.
    repeat match goal with |- context [if ?b then _ else _] => destruct b end;
      reflexivity.
  - intros o Ho; rewrite (sink_chunk_written _ _ _ o HF), Ho, Pos.eqb_refl.
    apply Hline.
Qed.

Lemma stamped_line_witness :
  let w := world_with (dual_logger demo_tty LOG_DEBUG) in
  let w' := exec (emission demo_env (Variadic "ts-on" []) (Some demo_lg) LOG_INFO
                    "test_log.c" 330 "timestamp_toggle") w in
  exists pre S F post,
    appended w w' (pre ++ S ++ F ++ post) /\
    has_iso8601_prefix (Some (written demo_tty S)) = false /\
    has_iso8601_prefix (Some (written demo_file F)) = true.
Proof.
  destruct (stamped_line demo_env (Variadic "ts-on" []) demo_lg LOG_INFO
              "test_log.c" 330 "timestamp_toggle"
              (world_with (dual_logger demo_tty LOG_DEBUG)) (mkTm 15 7 21 3 8 125))
    as (pre & S & F & post & Happ & _ & _ & HS & HF);
    [reflexivity | apply Z.leb_le; reflexivity | unfold calendar_time; cbn; lia
    | reflexivity |].
  exists pre, S, F, post; split; [exact Happ|].
  split; [apply (HS demo_tty eq_refl) | apply (HF demo_file eq_refl)].
Defined.

(** ** Shutdown and life cycle *)

Lemma open_balance_app (a b : list Event) :
  open_balance (a ++ b)%list = open_balance a + open_balance b.
Proof.
  induction a as [|e a IH]; cbn; [reflexivity|].
  destruct e as [| | |? ? [?|]| | | | |]; lia.
Qed.

(** X17: what [logger_close] does to streams.  It writes to none; it
    flushes exactly the sinks the logger has; it closes a stream exactly
    when that stream is the logger's file and the logger owns it, so a
    borrowed stream is never closed; and the mutex is destroyed after all
    of that. *)
Theorem close_stream_calls (l : loc) (w : World) :
  let g := mem w l in
  let w' := exec (logger_close (Some l)) w in
  exists io,
    appended w w' (io ++ [EvMutexDestroy l]) /\
    forallb (fun e => negb (is_write e) && negb (is_mutex_event e)) io = true /\
    (forall h, In (EvFlush h) io <-> file g = Some h \/ stream g = Some h) /\
    (forall h, In (EvClose h) io <-> file g = Some h /\ owns_file g = true).
Proof.
  intros g w'; subst w'.
  destruct (close_run l w) as (_ & _ & _ & Htr); fold g in Htr.
  exists (close_io g); split; [exact Htr|].
  unfold close_io.
  destruct (file g) as [o|], (stream g) as [s|], (owns_file g); cbn;
    (split; [reflexivity|]); split; intros h; split;
    intuition (try congruence; try discriminate; subst; auto).
Qed.

(** X18: the normal life cycle leaks nothing.  After a successful
    initialiser followed by [logger_close], as many mutexes are live and as
    many files open as before the initialiser ran; the logger has no sink
    and is not initialised. *)
Theorem init_close_balanced (E : Env) (i : initializer) (l : loc) (lv : LogLevel)
    (f : handle) (w : World) :
  null_argument i (Some l) = false ->
  env_mutex_init E = true -> opens_as E i f ->
  let w2 := exec (logger_close (Some l)) (exec (run_init E i (Some l) lv) w) in
  mutex_balance (trace w2) = mutex_balance (trace w) /\
  open_balance (trace w2) = open_balance (trace w) /\
  file (mem w2 l) = None /\ stream (mem w2 l) = None /\
  initialized (mem w2 l) = false.
Proof.
  intros Hnull Hmtx Hopen w2.
  destruct (init_success_run E i l lv f w Hnull Hmtx Hopen) as (_ & Htr1 & Hmem1).
  destruct (close_run l (exec (run_init E i (Some l) lv) w))
    as (Hmem2 & _ & _ & Htr2).
  fold w2 in Hmem2, Htr2.
  rewrite Htr2, Htr1, Hmem1, Hmem2.
  rewrite !mutex_balance_app, !open_balance_app.
  unfold close_io, fresh_logger, init_io, line_buffering.
  destruct i as [[s|] | [p|] | [p|] [s|]]; try discriminate Hnull;
    cbn [file stream owns_file init_file_sink init_stream_sink];
    try destruct (env_isatty E s); cbn; repeat split; lia.
Qed.

Lemma init_close_balanced_witness :
  let w2 := exec (logger_close (Some demo_lg))
                 (exec (run_init demo_env (InitDual (Some "app.log") (Some demo_tty))
                          (Some demo_lg) LOG_INFO) demo_world) in
  mutex_balance (trace w2) = 0 /\ open_balance (trace w2) = 0 /\
  In (EvClose demo_file) (trace w2) /\ ~ In (EvClose demo_tty) (trace w2).
Proof.
  destruct (init_close_balanced demo_env (InitDual (Some "app.log") (Some demo_tty))
              demo_lg LOG_INFO demo_file demo_world eq_refl eq_refl eq_refl)
    as (Hm & Ho & _).
  split; [exact Hm|]. split; [exact Ho|].
  split; [vm_compute; repeat (first [left; reflexivity | right])|].
  vm_compute; intros H; repeat destruct H as [H|H]; try discriminate H; exact H.
Defined.


(** ** Setters composed *)

Lemma setter_run (s : setter) (l : loc) (w : World) :
  run_setter s (Some l) w
  = (tt, mkWorld (errno w) (<[l := assigned s (mem w l)]> (mem w)) (trace w)).
Proof. destruct s; reflexivity. Qed.

(** X20: a setter takes effect on the next emission.  After a setter on a
    logger, an emission is filtered by, stamped, tagged and coloured
    according to the logger with the setter's field replaced: below its
    level nothing happens, otherwise each sink receives the line built from
    its name and toggles, flushed. *)
Theorem setter_takes_effect (E : Env) (s : setter) (en : entry) (l : loc)
    (lv : LogLevel) (f : string) (ln : Z) (fn : string) (w : World) :
  let g := assigned s (mem w l) in
  let w1 := exec (run_setter s (Some l)) w in
  let w2 := exec (emission E en (Some l) lv f ln fn) w1 in
  let line := line_text (stamp E g) (name g) lv f ln fn (message_text en) in
  (lv < level g -> w2 = w1) /\
  (level g <= lv ->
   exists pre S F post,
     appended w1 w2 (pre ++ S ++ F ++ post) /\
     forallb is_mutex_event pre = true /\ forallb is_mutex_event post = true /\
     flushed_line (stream g) S (if wants_color E g then colorized lv line else line) /\
     flushed_line (file g) F line).
Proof.
  intros g w1 w2 line.
  assert (Hmem : mem w1 l = g).
  { subst w1; unfold exec; rewrite setter_run; cbn [snd mem].
    apply fn_lookup_insert. }
  subst w2 line; unfold exec, appended; split.
  - intros Hlt. rewrite emission_suppressed; [reflexivity|].
    rewrite Hmem; apply Z.ltb_lt; exact Hlt.
  - intros Hpass.
    assert (Hcmp : (lv <? level (mem w1 l)) = false)
      by (rewrite Hmem; apply Z.ltb_ge; exact Hpass).
    destruct (emission_full E en l lv f ln fn w1 Hcmp)
      as (S & F & m & Hrun & HS & HF & _).
    rewrite Hmem in HS, HF, Hrun.
    destruct (guarded_mutex_only g l) as [Hpre Hpost].
    exists (guarded g (EvMutexLock l)), S, F, (guarded g (EvMutexUnlock l)).
    rewrite Hrun; cbn [snd trace].
    split; [reflexivity|]. split; [exact Hpre|]. split; [exact Hpost|].
    split; [exact HS | exact HF].
Qed.

Lemma setter_takes_effect_witness :
  let w := world_with (dual_logger demo_tty LOG_INFO) in
  let w1 := exec (run_setter (SetLevel LOG_ERROR) (Some demo_lg)) w in
  exec (emission demo_env (Preformatted "quiet now") (Some demo_lg) LOG_WARNING
          "main.c" 9 "main") w1 = w1.
Proof.
  apply (setter_takes_effect demo_env (SetLevel LOG_ERROR) (Preformatted "quiet now")
           demo_lg LOG_WARNING "main.c" 9 "main"
           (world_with (dual_logger demo_tty LOG_INFO))).
  reflexivity.
Defined.

(** X21: setters compose field by field.  Two setters in a row leave the
    logger with both assignments made; on the same field the second wins,
    on different fields the order does not matter.  Neither errno nor the
    trace moves. *)
Theorem setters_compose (s1 s2 : setter) (l : loc) (w : World) :
  let g := mem w l in
  let w12 := exec (run_setter s2 (Some l)) (exec (run_setter s1 (Some l)) w) in
  let w21 := exec (run_setter s1 (Some l)) (exec (run_setter s2 (Some l)) w) in
  mem w12 l = assigned s2 (assigned s1 g) /\
  (if same_field s1 s2 then mem w12 l = assigned s2 g
   else mem w12 l = mem w21 l) /\
  errno w12 = errno w /\ trace w12 = trace w.
Proof.
  cbv zeta; unfold exec; rewrite !setter_run; cbn [snd mem errno trace].
  rewrite !fn_lookup_insert.
  destruct s1, s2; repeat split.
Qed.

(** ** What an initialiser never does *)

(** X22: an initialiser releases nothing.  Whatever its arguments and
    outcome, it never writes to, flushes or closes a stream, and it
    destroys no mutex and closes no file beyond what it has itself just
    set up; so initialising a logger that is still live leaves the file
    and the mutex that logger held as they were, open and undestroyed. *)
Theorem init_releases_nothing (E : Env) (i : initializer) (lg : option loc)
    (lv : LogLevel) (w : World) :
  exists delta,
    appended w (exec (run_init E i lg lv) w) delta /\
    forallb (fun e => negb (is_stream_output e)) delta = true /\
    0 <= mutex_balance delta <= 1 /\ 0 <= open_balance delta <= 1.
Proof.
  unfold appended.
  destruct i as [[s|] | [p|] | [p|] [s|]], lg as [l|]; run_cbv;
    try (exists []; rewrite app_nil_r; cbn; repeat split; lia);
    destruct (env_mutex_init E); run_cbv;
    try (exists []; rewrite app_nil_r; cbn; repeat split; lia);
    try (destruct (env_fopen E p "a") as [o|e]; run_cbv);
    try (destruct (env_isatty E s); run_cbv);
    rewrite <- ?app_assoc; cbn [app];
    (eexists; split; [reflexivity|]); cbn; repeat split; lia.
Qed.
